(** * Yoda-Scheduler: the plugin entry points of [pkg/yoda/scheduler.go]

    A shallow embedding of the scheduler plugin ([Filter], [Less], [Score],
    [NormalizeScore]) together with the properties that the design document
    states about them.

    Conventions of the embedding:
    - Go's [int64] is a [Z] kept in the interval [-2^63, 2^63 - 1]; every
      arithmetic operation of the source is followed by an explicit
      wrap-around ([Int64.wrap]).
    - A run-time panic of Go (indexing past the end of a slice, integer
      division by zero) is a value [Panic p] of the type [result].
    - A Go [error] is represented by its text (what [err.Error()] returns).
    - A slice that the source updates in place is a [list] updated with
      stdpp's [<[i := x]>]; the index is checked first, as Go does.
    - Pointers and interface values handed to the plugin are taken to be
      non-nil; logging ([klog]) and the unused [context.Context] are left
      out. *)

From Stdlib Require Import ZArith Lia.
From stdpp Require Import base option list strings gmap.

Local Open Scope Z_scope.

(** ** Go run-time model *)

Inductive panic : Type :=
  | IndexOutOfRange (index len : nat)
  | IntegerDivideByZero.

Inductive result (A : Type) : Type :=
  | Ok (a : A)
  | Panic (p : panic).

Arguments Ok {A} a.
Arguments Panic {A} p.

#[global] Instance result_ret : MRet result := fun _ a => Ok a.

#[global] Instance result_bind : MBind result := fun _ _ f m =>
  match m with
  | Ok a => f a
  | Panic p => Panic p
  end.

(** [s[i]] on a slice: a bounds-checked read. *)
Definition index {A : Type} (s : list A) (i : nat) : result A :=
  match s !! i with
  | Some a => Ok a
  | None => Panic (IndexOutOfRange i (length s))
  end.

Module Int64.

Definition min_int : Z := - 2 ^ 63.
Definition max_int : Z := 2 ^ 63 - 1.

Definition in_range (z : Z) : Prop := min_int <= z <= max_int.

(** Two's complement reduction of a mathematical integer to 64 bits. *)
Definition wrap (z : Z) : Z := (z + 2 ^ 63) mod 2 ^ 64 - 2 ^ 63.

Definition sub (a b : Z) : Z := wrap (a - b).
Definition mul (a b : Z) : Z := wrap (a * b).

(** Go's [/] on integers truncates toward zero and panics on a zero
    divisor; [min_int / -1] wraps. *)
Definition div (a b : Z) : result Z :=
  if b =? 0 then Panic IntegerDivideByZero else Ok (wrap (a ÷ b)).

End Int64.

(** A Go [error], by its text. *)
Abbreviation error := string.

(** ** Types of the collaborators, as far as the plugin reads them *)

Module v1.

(** Modelled from the spec: the resource request parsed from a workload,
    whose representation inside [v1.Pod] is read by packages outside
    [scheduler.go]: a device count and, per device, a memory floor and a
    clock floor. *)
Record ResourceRequest : Type :=
  { count : N; memoryPerUnit : N; clockPerUnit : N }.

(** Modelled from the spec: what the decision core reads of a [v1.Pod], its
    name, its declared priority and its request. *)
Record Pod : Type :=
  { Name : string; Priority : Z; Request : ResourceRequest }.

End v1.

Module nodeinfo.

(** [node.Node().Name] is all the plugin reads of a node. *)
Record NodeInfo : Type := { NodeName : string }.

End nodeinfo.

Module scv.

(** Modelled from the spec: one device entry of a machine's advertised
    inventory (the type is declared outside [scheduler.go]). *)
Record Device : Type :=
  { count : N; memoryPerUnit : N; clockPerUnit : N }.

(** Modelled from the spec: the inventory object the store holds for a
    machine, an ordered sequence of device entries. *)
Record Scv : Type := { devices : list Device }.

End scv.

Module framework.

Inductive Code : Type :=
  | Success
  | Error
  | Unschedulable
  | UnschedulableAndUnresolvable
  | Wait
  | Skip.

Record Status : Type := NewStatus { code : Code; message : string }.

Record NodeScore : Type := { Name : string; Score : Z }.

(** [type NodeScoreList []NodeScore] *)
Abbreviation NodeScoreList := (list NodeScore).

Definition MaxNodeScore : Z := 100.

(** A pending workload in the scheduling queue, with its arrival time. *)
Record PodInfo : Type := { Pod : v1.Pod; Timestamp : Z }.

(** Modelled from the spec: the per-cycle shared state, a map from
    dimension name to the maximum recorded for it. *)
Abbreviation CycleState := (gmap string N).

End framework.

(** ** Packages of the repository that [scheduler.go] calls

    Their functions are interfaces here; the plugin is defined over any
    implementation. *)

Class FilterPackage : Type :=
  { PodFitsNumber : v1.Pod -> scv.Scv -> bool * nat;
    PodFitsMemory : nat -> v1.Pod -> scv.Scv -> bool * N;
    PodFitsClock : nat -> v1.Pod -> scv.Scv -> bool * N;
    Uint64ToInt64 : N -> Z }.

Class ScorePackage : Type :=
  { CalculateScore :
      scv.Scv -> framework.CycleState -> v1.Pod -> nodeinfo.NodeInfo
      -> N * option error }.

Class SortPackage : Type :=
  { sort_Less : framework.PodInfo -> framework.PodInfo -> bool }.

(** [strconv.Quote], which [fmt.Sprintf] applies for the verb [%q]. *)
Class Strconv : Type := { Quote : string -> string }.

(** ** Calls made by [Filter], in order *)

Inductive call : Type :=
  | CallGet (name : string)
  | CallPodFitsNumber
  | CallPodFitsMemory (number : nat)
  | CallPodFitsClock (number : nat).

Definition traced (A : Type) : Type := A * list call.

#[global] Instance traced_ret : MRet traced := fun _ a => (a, []).

#[global] Instance traced_bind : MBind traced := fun _ _ f m =>
  let '(b, later) := f m.1 in (b, m.2 ++ later).

(** Performing call [c], which returns [a]. *)
Definition perform {A : Type} (c : call) (a : A) : traced A := (a, [c]).

(** ** The plugin *)

Module yoda.
Import framework.

(** The inventory store client: [Get] by machine name. *)
Record Client : Type := { Get : string -> scv.Scv * option error }.

(** The framework handle: the node snapshot, read by name. *)
Record FrameworkHandle : Type :=
  { NodeInfos_Get : string -> nodeinfo.NodeInfo * option error }.

Record Yoda : Type := { handle : FrameworkHandle; scvClient : Client }.

Section Plugin.
Context {filterPkg : FilterPackage} {scorePkg : ScorePackage}
        {sortPkg : SortPackage} {strconv : Strconv}.

Definition Filter_calls (y : Yoda) (pod : v1.Pod) (node : nodeinfo.NodeInfo)
  : traced Status :=
  let name := nodeinfo.NodeName node in
  '(currentScv, err) ← perform (CallGet name) (Get (scvClient y) name);
  match err with
  | Some err =>
      mret (NewStatus Unschedulable ((("Node:" +:+ name) +:+ " ") +:+ err))
  | None =>
      '(ok, number) ← perform CallPodFitsNumber (PodFitsNumber pod currentScv);
      if ok : bool then
        '(isFitsMemory, _) ←
          perform (CallPodFitsMemory number) (PodFitsMemory number pod currentScv);
        '(isFitsClock, _) ←
          perform (CallPodFitsClock number) (PodFitsClock number pod currentScv);
        if isFitsMemory && isFitsClock
        then mret (NewStatus Success EmptyString)
        else mret (NewStatus Unschedulable ("Node:" +:+ name))
      else mret (NewStatus Unschedulable ("Node:" +:+ name))
  end.

Definition Filter (y : Yoda) (pod : v1.Pod) (node : nodeinfo.NodeInfo)
  : Status :=
  (Filter_calls y pod node).1.

Definition Less (y : Yoda) (podInfo1 podInfo2 : PodInfo) : bool :=
  sort_Less podInfo1 podInfo2.

Definition Score (y : Yoda) (state : CycleState) (p : v1.Pod)
    (nodeName : string) : Z * Status :=
  let '(nodeInfo, err) := NodeInfos_Get (handle y) nodeName in
  match err with
  | Some err =>
      (0, NewStatus Error
            ("getting node " +:+ Quote nodeName +:+ " from Snapshot: " +:+ err))
  | None =>
      let '(currentScv, err) := Get (scvClient y) nodeName in
      match err with
      | Some err => (0, NewStatus Error ("Score Node Error: " +:+ err))
      | None =>
          let '(uNodeScore, err) := CalculateScore currentScv state p nodeInfo in
          match err with
          | Some err => (0, NewStatus Error ("Score Node Error: " +:+ err))
          | None =>
              let nodeScore := Uint64ToInt64 uNodeScore in
              (nodeScore, NewStatus Success EmptyString)
          end
      end
  end.

End Plugin.

(** *** NormalizeScore *)

(** Body of the first loop: one candidate updates the running bounds. *)
Definition scan (bounds : Z * Z) (nodeScore : NodeScore) : Z * Z :=
  let '(highest, lowest) := bounds in
  let score := framework.Score nodeScore in
  let lowest := if score <? lowest then score else lowest in
  let highest := if score >? highest then score else highest in
  (highest, lowest).

(** The declarations and the first loop: [highest] starts at the literal
    [0], [lowest] at [scores[0].Score]. *)
Definition bounds (scores : NodeScoreList) : result (Z * Z) :=
  first ← index scores 0;
  mret (fold_left scan scores (0, framework.Score first)).

(** [if highest == lowest { lowest -- }] *)
Definition adjust (bounds : Z * Z) : Z * Z :=
  let '(highest, lowest) := bounds in
  if highest =? lowest then (highest, Int64.sub lowest 1) else (highest, lowest).

(** The right-hand side of the assignment in the second loop. *)
Definition rescale (highest lowest score : Z) : result Z :=
  Int64.div (Int64.mul (Int64.sub score lowest) MaxNodeScore)
            (Int64.sub highest lowest).

(** Body of the second loop at index [i]: read [scores[i]], assign
    [scores[i].Score]. *)
Definition rewrite_at (highest lowest : Z) (scores : NodeScoreList) (i : nat)
  : result NodeScoreList :=
  nodeScore ← index scores i;
  v ← rescale highest lowest (framework.Score nodeScore);
  target ← index scores i;
  mret (<[i := {| Name := Name target; framework.Score := v |}]> scores).

Definition rewrite_loop (highest lowest : Z) (scores : NodeScoreList)
  : result NodeScoreList :=
  fold_left (fun acc i => s ← acc; rewrite_at highest lowest s i)
            (seq 0 (length scores)) (Ok scores).

Definition NormalizeScore (scores : NodeScoreList)
  : result (NodeScoreList * Status) :=
  b ← bounds scores;
  let '(highest, lowest) := adjust b in
  scores' ← rewrite_loop highest lowest scores;
  mret (scores', NewStatus Success EmptyString).

(** The bounds in force when the second loop runs. *)
Definition normalization_bounds (scores : NodeScoreList) : result (Z * Z) :=
  b ← bounds scores; mret (adjust b).

(** *** PostFilter *)

(** [scvClient.List], the listing of every inventory object of the store. *)
Class Listing : Type := { List : Client -> list scv.Scv * option error }.

(** [collection.CollectMaxValues], of another package of the repository: it
    may write the cycle state and returns the status of the pass. *)
Class CollectionPackage : Type :=
  { CollectMaxValues :
      CycleState -> v1.Pod -> list scv.Scv -> CycleState * Status }.

Section Collect.
Context {listing : Listing} {collectionPkg : CollectionPackage}.

(** [nodes] and [filteredNodesStatuses] are the candidate nodes and the
    outcome of Filter for each, by name; the result is the cycle state after
    the call, with the status. *)
Definition PostFilter (y : Yoda) (state : CycleState) (pod : v1.Pod)
    (nodes : list string) (filteredNodesStatuses : gmap string Status)
  : CycleState * Status :=
  let '(scvList, err) := List (scvClient y) in
  match err with
  | Some err => (state, NewStatus Error err)
  | None => CollectMaxValues state pod scvList
  end.

End Collect.

(** *** New and NewScvClient *)

Record Args : Type := { KubeConfig : string; Master : string }.

(** The struct [Yoda] as [New] builds it: with the decoded arguments, and
    with a client that is nil ([None]) when it could not be built.  [Yoda]
    above is the part of it the entry points read, the client being there. *)
Record Instance : Type :=
  { args : Args;
    instance_handle : FrameworkHandle;
    instance_scvClient : option Client }.

(** What [New] and [NewScvClient] call outside the repository:
    [framework.DecodeInto], [scv.AddToScheme], [clientcmd.BuildConfigFromFlags]
    and [client.New]. *)
Class Environment : Type :=
  { Unknown : Type;
    Config : Type;
    DecodeInto : Unknown -> Args -> Args * option error;
    AddToScheme : option error;
    BuildConfigFromFlags : string -> string -> Config * option error;
    client_New : Config -> option Client * option error }.

Section Construction.
Context {environment : Environment}.

Definition NewScvClient : option Client :=
  match AddToScheme with
  | Some err => None
  | None =>
      let '(config, err) := BuildConfigFromFlags EmptyString EmptyString in
      match err with
      | Some err => None
      | None =>
          let '(c, err) := client_New config in
          match err with
          | Some err => None
          | None => c
          end
      end
  end.

Definition New (configuration : Unknown) (f : FrameworkHandle)
  : option Instance * option error :=
  let '(args, err) :=
    DecodeInto configuration {| KubeConfig := EmptyString; Master := EmptyString |} in
  match err with
  | Some err => (None, Some err)
  | None =>
      (Some {| args := args; instance_handle := f;
               instance_scvClient := NewScvClient |}, None)
  end.

End Construction.

End yoda.

(** ** The collaborating packages, from the design document *)

Module design.
Import framework.

(** Modelled from the spec: [filter.PodFitsNumber], which is not part of
    [scheduler.go].  It selects the first device entry whose free count is
    at least the requested device count and returns its index; without
    such an entry it reports no fit. *)
Definition PodFitsNumber (pod : v1.Pod) (inventory : scv.Scv) : bool * nat :=
  match list_find (fun d => (v1.count (v1.Request pod) <= scv.count d)%N)
                  (scv.devices inventory) with
  | Some (i, _) => (true, i)
  | None => (false, 0%nat)
  end.

(** Modelled from the spec: [filter.PodFitsMemory], which is not part of
    [scheduler.go].  Memory fitness of the matched device: its memory per
    unit is at least the requested floor.  The second result, which
    [Filter] discards, is the device's memory. *)
Definition PodFitsMemory (number : nat) (pod : v1.Pod) (inventory : scv.Scv)
  : bool * N :=
  match scv.devices inventory !! number with
  | Some d =>
      (bool_decide (v1.memoryPerUnit (v1.Request pod) <= scv.memoryPerUnit d)%N,
       scv.memoryPerUnit d)
  | None => (false, 0%N)
  end.

(** Modelled from the spec: [filter.PodFitsClock], which is not part of
    [scheduler.go].  Clock fitness of the matched device: its clock per
    unit is at least the requested floor. *)
Definition PodFitsClock (number : nat) (pod : v1.Pod) (inventory : scv.Scv)
  : bool * N :=
  match scv.devices inventory !! number with
  | Some d =>
      (bool_decide (v1.clockPerUnit (v1.Request pod) <= scv.clockPerUnit d)%N,
       scv.clockPerUnit d)
  | None => (false, 0%N)
  end.

(** The three dimensions whose maxima the aggregation pass records. *)
Definition dimensions : list string := ["device-count"; "memory"; "clock"].

(** Modelled from the spec: [score.CalculateScore], which is not part of
    [scheduler.go].  It reads the three recorded maxima from the cycle
    state; a missing one is an error (AggregationMissing), never a
    default.  How the three ratios are weighted is a policy, the
    parameter [weighting]. *)
Definition CalculateScore
    (weighting : scv.Scv -> v1.Pod -> N -> N -> N -> N)
    (inventory : scv.Scv) (state : CycleState) (pod : v1.Pod)
    (nodeInfo : nodeinfo.NodeInfo) : N * option error :=
  match state !! "device-count", state !! "memory", state !! "clock" with
  | Some maxCount, Some maxMemory, Some maxClock =>
      (weighting inventory pod maxCount maxMemory maxClock, None)
  | _, _, _ => (0%N, Some "AggregationMissing")
  end.

(** Modelled from the spec: [sort.Less], which is not part of
    [scheduler.go].  Two pending workloads are compared on an ordering key,
    first component first: [a] comes before [b] when its key is the smaller
    one.  Which key is used is a policy, the parameter [key]. *)
Definition Less (key : PodInfo -> Z * Z) (a b : PodInfo) : bool :=
  ((key a).1 <? (key b).1)
  || (((key a).1 =? (key b).1) && ((key a).2 <? (key b).2)).

(** Modelled from the spec: the ordering key it gives as an example,
    declared priority (higher first), then arrival time (earlier first). *)
Definition priority_then_arrival (p : PodInfo) : Z * Z :=
  (- v1.Priority (Pod p), Timestamp p).

(** An implementation of [filter.Uint64ToInt64] for the concrete instances
    below: the two's complement reading of the 64 bits. *)
Definition Uint64ToInt64 (u : N) : Z := Int64.wrap (Z.of_N u).

Definition filter_package : FilterPackage :=
  Build_FilterPackage PodFitsNumber PodFitsMemory PodFitsClock Uint64ToInt64.

Definition sort_package (key : PodInfo -> Z * Z) : SortPackage :=
  Build_SortPackage (Less key).

Definition score_package (weighting : scv.Scv -> v1.Pod -> N -> N -> N -> N)
  : ScorePackage :=
  Build_ScorePackage (CalculateScore weighting).

End design.

Import framework yoda.

Definition ns (name : string) (score : Z) : NodeScore :=
  {| Name := name; framework.Score := score |}.

(** Minimum and maximum of a list of integers ([None] on the empty list). *)
Definition minimum (l : list Z) : option Z :=
  match l with
  | [] => None
  | x :: xs => Some (fold_left Z.min xs x)
  end.

Definition maximum (l : list Z) : option Z :=
  match l with
  | [] => None
  | x :: xs => Some (fold_left Z.max xs x)
  end.

Definition int64_scores (scores : NodeScoreList) : Prop :=
  Forall (fun n => Int64.in_range (framework.Score n)) scores.

(** The value the second loop stores, when the divisor is not zero. *)
Definition rescaled (highest lowest score : Z) : Z :=
  Int64.wrap (Int64.mul (Int64.sub score lowest) MaxNodeScore
              ÷ Int64.sub highest lowest).

Definition rescale_entry (highest lowest : Z) (n : NodeScore) : NodeScore :=
  {| Name := Name n; framework.Score := rescaled highest lowest (framework.Score n) |}.

(** ** A small cluster, for concrete instances

    The request and the three machines of the design document's end-to-end
    example. *)

Module cluster.

Definition job : v1.Pod :=
  {| v1.Name := "job"; v1.Priority := 0;
     v1.Request := {| v1.count := 1; v1.memoryPerUnit := 4; v1.clockPerUnit := 2 |} |}.

Definition M1 : scv.Scv :=
  {| scv.devices :=
       [{| scv.count := 2; scv.memoryPerUnit := 8; scv.clockPerUnit := 4 |}] |}.
Definition M2 : scv.Scv :=
  {| scv.devices :=
       [{| scv.count := 0; scv.memoryPerUnit := 16; scv.clockPerUnit := 8 |}] |}.
Definition M3 : scv.Scv :=
  {| scv.devices :=
       [{| scv.count := 1; scv.memoryPerUnit := 2; scv.clockPerUnit := 1 |}] |}.

Definition unknown : scv.Scv := {| scv.devices := [] |}.

(** A store that knows M1, M2 and M3 and fails for every other name. *)
Definition store : Client :=
  {| Get := fun name =>
       if String.eqb name "M1" then (M1, None)
       else if String.eqb name "M2" then (M2, None)
       else if String.eqb name "M3" then (M3, None)
       else (unknown, Some "not found") |}.

(** A store that answers with the same inventory for every name. *)
Definition store_of (inventory : scv.Scv) : Client :=
  {| Get := fun _ => (inventory, None) |}.

Definition snapshot : FrameworkHandle :=
  {| NodeInfos_Get := fun name => ({| nodeinfo.NodeName := name |}, None) |}.

Definition plugin : Yoda := {| handle := snapshot; scvClient := store |}.

Definition node (name : string) : nodeinfo.NodeInfo :=
  {| nodeinfo.NodeName := name |}.

(** Quoting without escapes, enough for the names used here. *)
Definition quotes : Strconv :=
  {| Quote := fun s =>
       String (Ascii.ascii_of_nat 34) (s +:+ String (Ascii.ascii_of_nat 34) EmptyString) |}.

(** A weighting policy, needed only to have a score package at hand. *)
Definition weighting (inventory : scv.Scv) (pod : v1.Pod)
    (maxCount maxMemory maxClock : N) : N :=
  (maxCount + maxMemory + maxClock)%N.

Definition queued (priority arrival : Z) : PodInfo :=
  {| Pod := {| v1.Name := "job"; v1.Priority := priority;
               v1.Request := v1.Request job |};
     Timestamp := arrival |}.

End cluster.

(** ** Collaborators of PostFilter and New, for concrete instances *)

Module fixtures.

(** A store whose listing fails. *)
Definition failing_listing : Listing :=
  {| List := fun _ => ([], Some "store unavailable") |}.

(** A store that lists the three machines of the cluster. *)
Definition listing : Listing :=
  {| List := fun _ => ([cluster.M1; cluster.M2; cluster.M3], None) |}.

(** A collector that records the number of inventories it was given. *)
Definition counting : CollectionPackage :=
  {| CollectMaxValues := fun state _ scvList =>
       (<["device-count" := N.of_nat (length scvList)]> state,
        NewStatus Success EmptyString) |}.

(** A store that fails for every name. *)
Definition down : Client :=
  {| Get := fun _ => (cluster.unknown, Some "store unavailable") |}.

(** Decoding reads the master address from the configuration; the scheme
    and the client are built without error, the configuration for the
    client cannot be built. *)
Definition no_config : Environment :=
  {| Unknown := string;
     Config := unit;
     DecodeInto := fun configuration args =>
       if String.eqb configuration "bad"
       then (args, Some "cannot decode")
       else ({| KubeConfig := KubeConfig args; Master := configuration |}, None);
     AddToScheme := None;
     BuildConfigFromFlags := fun _ _ => (tt, Some "no configuration");
     client_New := fun _ => (Some cluster.store, None) |}.

(** The same, with a configuration for the client at hand. *)
Definition in_cluster : Environment :=
  {| Unknown := string;
     Config := unit;
     DecodeInto := fun configuration args =>
       if String.eqb configuration "bad"
       then (args, Some "cannot decode")
       else ({| KubeConfig := KubeConfig args; Master := configuration |}, None);
     AddToScheme := None;
     BuildConfigFromFlags := fun _ _ => (tt, None);
     client_New := fun _ => (Some cluster.store, None) |}.

End fixtures.

(** * Properties *)

(** ** 64-bit arithmetic *)

Section Int64_facts.

Lemma wrap_id z : Int64.in_range z -> Int64.wrap z = z.
Proof.
  unfold Int64.in_range, Int64.wrap, Int64.min_int, Int64.max_int.
  intros H. rewrite Z.mod_small; lia.
Qed.

Lemma wrap_in_range z : Int64.in_range (Int64.wrap z).
Proof.
  unfold Int64.in_range, Int64.wrap, Int64.min_int, Int64.max_int.
  pose proof (Z.mod_pos_bound (z + 2 ^ 63) (2 ^ 64)). lia.
Qed.

(** A difference of two distinct 64-bit values never wraps to zero. *)
Lemma sub_nonzero a b :
  Int64.in_range a -> Int64.in_range b -> a <> b -> Int64.sub a b <> 0.
Proof.
  unfold Int64.in_range, Int64.sub, Int64.wrap, Int64.min_int, Int64.max_int.
  intros Ha Hb Hne Hz.
  pose proof (Z.div_mod (a - b + 2 ^ 63) (2 ^ 64) ltac:(lia)) as Hdm.
  remember ((a - b + 2 ^ 63) / 2 ^ 64) as q.
  remember ((a - b + 2 ^ 63) mod 2 ^ 64) as r.
  lia.
Qed.

End Int64_facts.

(** ** The first loop of NormalizeScore *)

Section Bounds.

Lemma scan_min_max h lo n :
  scan (h, lo) n = (Z.max h (framework.Score n), Z.min lo (framework.Score n)).
Proof.
  unfold scan.
  destruct (Z.ltb_spec (framework.Score n) lo), (Z.gtb_spec (framework.Score n) h);
    f_equal; lia.
Qed.

Lemma fold_scan l : forall h lo,
  fold_left scan l (h, lo)
  = (fold_left Z.max (framework.Score <$> l) h, fold_left Z.min (framework.Score <$> l) lo).
Proof.
  induction l as [|n l IH]; intros h lo; [reflexivity|].
  cbn [fold_left fmap list_fmap]. rewrite scan_min_max. apply IH.
Qed.

Lemma fold_max_spec l : forall h,
  h <= fold_left Z.max l h
  /\ Forall (fun x => x <= fold_left Z.max l h) l
  /\ (fold_left Z.max l h = h \/ fold_left Z.max l h ∈ l).
Proof.
  induction l as [|x l IH]; intros h; cbn [fold_left].
  - repeat split; [lia | constructor | now left].
  - destruct (IH (Z.max h x)) as (Hle & Hall & Hin).
    repeat split; [lia | constructor; [lia | exact Hall] |].
    destruct Hin as [Heq | Hin]; [| right; now constructor].
    rewrite Heq. destruct (Z.max_spec h x) as [[_ ->] | [_ ->]];
      [right; constructor | now left].
Qed.

Lemma fold_min_spec l : forall lo,
  fold_left Z.min l lo <= lo
  /\ Forall (fun x => fold_left Z.min l lo <= x) l
  /\ (fold_left Z.min l lo = lo \/ fold_left Z.min l lo ∈ l).
Proof.
  induction l as [|x l IH]; intros lo; cbn [fold_left].
  - repeat split; [lia | constructor | now left].
  - destruct (IH (Z.min lo x)) as (Hle & Hall & Hin).
    repeat split; [lia | constructor; [lia | exact Hall] |].
    destruct Hin as [Heq | Hin]; [| right; now constructor].
    rewrite Heq. destruct (Z.min_spec lo x) as [[_ ->] | [_ ->]];
      [now left | right; constructor].
Qed.

Lemma fold_max_seed l : forall a b,
  fold_left Z.max l (Z.max a b) = Z.max a (fold_left Z.max l b).
Proof.
  induction l as [|x l IH]; intros a b; cbn [fold_left]; [reflexivity|].
  rewrite <- IH. f_equal. lia.
Qed.

(** On a non-empty list the first loop ends with [lowest] the minimum of
    the scores and [highest] the larger of [0] and their maximum. *)
Lemma bounds_cons first rest lo hi :
  minimum (framework.Score <$> first :: rest) = Some lo ->
  maximum (framework.Score <$> first :: rest) = Some hi ->
  bounds (first :: rest) = Ok (Z.max 0 hi, lo).
Proof.
  intros Hlo Hhi.
  change (bounds (first :: rest))
    with (Ok (fold_left scan rest (scan (0, framework.Score first) first))).
  injection Hlo as <-. injection Hhi as <-. f_equal.
  rewrite scan_min_max, fold_scan, fold_max_seed, Z.min_id. reflexivity.
Qed.

End Bounds.

(** ** The second loop of NormalizeScore *)

Section Rewrite.

Variables highest lowest : Z.
Hypothesis divisor : Int64.sub highest lowest <> 0.

Lemma rescale_defined score :
  rescale highest lowest score = Ok (rescaled highest lowest score).
Proof.
  unfold rescale, rescaled, Int64.div.
  destruct (Z.eqb_spec (Int64.sub highest lowest) 0); [contradiction | reflexivity].
Qed.

Lemma rewrite_at_middle (done rest : NodeScoreList) (n : NodeScore) :
  rewrite_at highest lowest (done ++ n :: rest) (length done)
  = Ok ((done ++ [rescale_entry highest lowest n]) ++ rest).
Proof.
  unfold rewrite_at, index.
  rewrite list_lookup_middle by reflexivity.
  change (Ok n ≫= ?f) with (f n). cbv beta.
  rewrite rescale_defined.
  change (Ok ?v ≫= ?f) with (f v). cbv beta.
  change (Ok n ≫= ?f) with (f n). cbv beta.
  unfold mret, result_ret. f_equal.
  rewrite insert_app_r_alt by lia.
  rewrite Nat.sub_diag, <- app_assoc. reflexivity.
Qed.

(** Running the loop from index [length done] over the entries not yet
    visited rewrites exactly those, one by one and in place. *)
Lemma rewrite_from (rest : NodeScoreList) : forall done : NodeScoreList,
  fold_left (fun acc i => s ← acc; rewrite_at highest lowest s i)
            (seq (length done) (length rest)) (Ok (done ++ rest))
  = Ok (done ++ (rescale_entry highest lowest <$> rest)).
Proof.
  induction rest as [|n rest IH]; intros done; [reflexivity|].
  cbn [length seq fold_left].
  change (Ok (done ++ n :: rest) ≫= _)
    with (rewrite_at highest lowest (done ++ n :: rest) (length done)).
  rewrite rewrite_at_middle.
  replace (S (length done)) with (length (done ++ [rescale_entry highest lowest n]))
    by (rewrite length_app; cbn; lia).
  rewrite IH, <- app_assoc. reflexivity.
Qed.

Lemma rewrite_loop_fmap (scores : NodeScoreList) :
  rewrite_loop highest lowest scores
  = Ok (rescale_entry highest lowest <$> scores).
Proof. exact (rewrite_from scores []). Qed.

End Rewrite.

(** ** NormalizeScore on a non-empty slice *)

Section Normalize_facts.

Lemma in_range_elem (scores : NodeScoreList) z :
  int64_scores scores -> z ∈ framework.Score <$> scores -> Int64.in_range z.
Proof.
  intros Hall Hin. apply list_elem_of_fmap in Hin as (n & -> & Hn).
  unfold int64_scores in Hall. rewrite Forall_forall in Hall. now apply Hall.
Qed.

(** What the first loop establishes. *)
Lemma bounds_facts first rest :
  int64_scores (first :: rest) ->
  exists hi lo,
    bounds (first :: rest) = Ok (hi, lo)
    /\ minimum (framework.Score <$> first :: rest) = Some lo
    /\ (exists m, maximum (framework.Score <$> first :: rest) = Some m /\ hi = Z.max 0 m)
    /\ Int64.in_range hi /\ Int64.in_range lo
    /\ 0 <= hi
    /\ Forall (fun n => lo <= framework.Score n <= hi) (first :: rest).
Proof.
  intros Hall.
  set (lo := fold_left Z.min (framework.Score <$> rest) (framework.Score first)).
  set (m := fold_left Z.max (framework.Score <$> rest) (framework.Score first)).
  exists (Z.max 0 m), lo.
  destruct (fold_min_spec (framework.Score <$> rest) (framework.Score first))
    as (Hlo1 & Hlo2 & Hlo3).
  destruct (fold_max_spec (framework.Score <$> rest) (framework.Score first))
    as (Hm1 & Hm2 & Hm3).
  fold lo in Hlo1, Hlo2, Hlo3. fold m in Hm1, Hm2, Hm3.
  assert (Hfirst : Int64.in_range (framework.Score first)) by (inversion Hall; assumption).
  assert (Hrest : int64_scores rest) by (inversion Hall; assumption).
  assert (Hrlo : Int64.in_range lo).
  { destruct Hlo3 as [-> | Hin]; [assumption | eapply in_range_elem; eassumption]. }
  assert (Hrm : Int64.in_range m).
  { destruct Hm3 as [-> | Hin]; [assumption | eapply in_range_elem; eassumption]. }
  split; [apply bounds_cons; reflexivity|].
  split; [reflexivity|].
  split; [exists m; split; reflexivity|].
  split; [unfold Int64.in_range, Int64.min_int, Int64.max_int in *; lia|].
  split; [assumption|].
  split; [lia|].
  constructor; [lia|].
  rewrite Forall_fmap in Hlo2, Hm2.
  rewrite Forall_forall in *. intros n Hn.
  specialize (Hlo2 n Hn). specialize (Hm2 n Hn). cbn in Hlo2, Hm2. lia.
Qed.

(** The bounds in force in the second loop: [lowest] has been decremented
    when the first loop ended with [highest = lowest], so [lowest] is
    strictly below [highest] and every score lies between them. *)
Lemma normalization_bounds_facts first rest :
  int64_scores (first :: rest) ->
  exists hi lo m l0,
    minimum (framework.Score <$> first :: rest) = Some l0
    /\ maximum (framework.Score <$> first :: rest) = Some m
    /\ hi = Z.max 0 m
    /\ lo = (if Z.max 0 m =? l0 then l0 - 1 else l0)
    /\ normalization_bounds (first :: rest) = Ok (hi, lo)
    /\ Int64.in_range hi /\ Int64.in_range lo
    /\ lo < hi
    /\ Forall (fun n => lo <= framework.Score n <= hi) (first :: rest).
Proof.
  intros Hall.
  destruct (bounds_facts first rest Hall)
    as (hi & l0 & Hb & Hmin & (m & Hmax & Hhi) & Hrhi & Hrlo & H0 & Hbetween).
  assert (Hle : l0 <= hi) by (inversion Hbetween; lia).
  exists hi, (if Z.max 0 m =? l0 then l0 - 1 else l0), m, l0.
  do 4 (split; [assumption || reflexivity|]).
  unfold normalization_bounds. rewrite Hb.
  change (Ok (hi, l0) ≫= ?f) with (f (hi, l0)). cbv beta.
  unfold adjust, mret, result_ret. rewrite <- Hhi.
  destruct (Z.eqb_spec hi l0) as [Heq | Hne].
  - assert (Hr : Int64.in_range (l0 - 1))
      by (unfold Int64.in_range, Int64.min_int, Int64.max_int in *; lia).
    unfold Int64.sub. rewrite (wrap_id _ Hr).
    repeat split; [exact (proj1 Hrhi) | exact (proj2 Hrhi)
                  | exact (proj1 Hr) | exact (proj2 Hr) | lia |].
    eapply Forall_impl; [exact Hbetween | cbv beta; intros; lia].
  - repeat split; [exact (proj1 Hrhi) | exact (proj2 Hrhi)
                  | exact (proj1 Hrlo) | exact (proj2 Hrlo) | lia | exact Hbetween].
Qed.

(** NormalizeScore runs to completion on every non-empty slice of 64-bit
    scores and rewrites each entry with [rescale_entry] at the bounds in
    force after the degenerate-case adjustment. *)
Lemma NormalizeScore_nonempty (scores : NodeScoreList) hi lo :
  int64_scores scores ->
  normalization_bounds scores = Ok (hi, lo) ->
  NormalizeScore scores
  = Ok (rescale_entry hi lo <$> scores, NewStatus Success EmptyString).
Proof.
  intros Hall Hnb. destruct scores as [|first rest]; [discriminate Hnb|].
  destruct (normalization_bounds_facts first rest Hall)
    as (hi' & lo' & m & l0 & _ & _ & _ & _ & Hnb' & Hrhi & Hrlo & Hlt & _).
  rewrite Hnb in Hnb'. injection Hnb' as <- <-.
  assert (Hdiv : Int64.sub hi lo <> 0) by (apply sub_nonzero; [assumption .. | lia]).
  unfold normalization_bounds in Hnb. unfold NormalizeScore.
  destruct (bounds (first :: rest)) as [b|]; [|discriminate Hnb].
  change (Ok b ≫= ?f) with (f b) in Hnb |- *. cbv beta in Hnb |- *.
  injection Hnb as Hadj. rewrite Hadj.
  rewrite (rewrite_loop_fmap hi lo Hdiv). reflexivity.
Qed.

(** Without overflow the stored value is the exact quotient, and it lies
    between [0] and [MaxNodeScore]. *)
Lemma rescaled_exact hi lo score :
  Int64.in_range hi -> Int64.in_range lo ->
  lo < hi -> lo <= score <= hi ->
  (hi - lo) * MaxNodeScore <= Int64.max_int ->
  rescaled hi lo score = (score - lo) * MaxNodeScore ÷ (hi - lo)
  /\ 0 <= rescaled hi lo score <= MaxNodeScore.
Proof.
  unfold MaxNodeScore. intros Hrhi Hrlo Hlt Hs Hfit.
  assert (Hq : 0 <= (score - lo) * 100 ÷ (hi - lo) <= 100).
  { rewrite Z.quot_div_nonneg by lia. split.
    - apply Z.div_pos; lia.
    - apply Z.div_le_upper_bound; lia. }
  unfold rescaled, Int64.mul, Int64.sub, MaxNodeScore.
  unfold Int64.in_range, Int64.min_int, Int64.max_int in Hrhi, Hrlo, Hfit.
  assert (Hin : forall z, 0 <= z <= (hi - lo) * 100 -> Int64.wrap z = z).
  { intros z Hz. apply wrap_id.
    unfold Int64.in_range, Int64.min_int, Int64.max_int. lia. }
  rewrite (Hin (score - lo)), (Hin (hi - lo)), (Hin ((score - lo) * 100)) by lia.
  rewrite Hin by lia.
  split; [reflexivity | lia].
Qed.

Lemma fold_uniform c l :
  Forall (fun x => x = c) l ->
  fold_left Z.min l c = c /\ fold_left Z.max l c = c.
Proof.
  induction 1 as [|x l -> _ IH]; cbn [fold_left]; [split; reflexivity|].
  rewrite Z.min_id, Z.max_id. exact IH.
Qed.

(** The degenerate case as the source tests it: when all scores are equal
    and not negative, [lowest] is decremented and every entry is rewritten
    to [MaxNodeScore]. *)
Lemma NormalizeScore_uniform (scores : NodeScoreList) c :
  scores <> [] -> 0 <= c <= Int64.max_int ->
  Forall (fun n => framework.Score n = c) scores ->
  normalization_bounds scores = Ok (c, c - 1)
  /\ NormalizeScore scores
     = Ok ((fun n => {| Name := Name n; framework.Score := MaxNodeScore |}) <$> scores,
           NewStatus Success EmptyString).
Proof.
  intros Hne Hc Hall. destruct scores as [|first rest]; [contradiction|].
  assert (H64 : int64_scores (first :: rest)).
  { eapply Forall_impl; [exact Hall|]. cbv beta. intros n ->.
    unfold Int64.in_range, Int64.min_int, Int64.max_int in *. lia. }
  destruct (normalization_bounds_facts first rest H64)
    as (hi & lo & m & l0 & Hmin & Hmax & -> & -> & Hnb & _).
  assert (Hfirst : framework.Score first = c) by (inversion Hall; assumption).
  assert (Hrest : Forall (fun x => x = c) (framework.Score <$> rest)).
  { rewrite Forall_fmap. inversion Hall; assumption. }
  destruct (fold_uniform c _ Hrest) as [Hfmin Hfmax].
  cbn in Hmin, Hmax. rewrite Hfirst in Hmin, Hmax.
  rewrite Hfmin in Hmin. rewrite Hfmax in Hmax.
  injection Hmin as <-. injection Hmax as <-.
  rewrite Z.max_r in Hnb by lia. rewrite Z.eqb_refl in Hnb.
  split; [exact Hnb|].
  rewrite (NormalizeScore_nonempty _ _ _ H64 Hnb). do 2 f_equal.
  apply Forall_fmap_ext_1. eapply Forall_impl; [exact Hall|].
  cbv beta. intros n Hn. unfold rescale_entry. f_equal.
  rewrite Hn. unfold rescaled, Int64.sub, Int64.mul.
  replace (c - (c - 1)) with 1 by lia. reflexivity.
Qed.

End Normalize_facts.

(** ** Statements of the design document about NormalizeScore *)

Ltac int64_list :=
  repeat constructor;
  unfold Int64.in_range, Int64.min_int, Int64.max_int; cbn; lia.

(** C1. The design document asks that the empty score list be processed as
    a no-op.  The source reads [scores[0].Score] before anything else, so on
    the empty list it stops with an index-out-of-range panic: no status is
    returned. *)
Theorem NormalizeScore_empty_panics :
  NormalizeScore [] = Panic (IndexOutOfRange 0 0).
Proof. reflexivity. Qed.

(** C2. The design document asks for [lowest] the minimum and [highest] the
    maximum of the scores, also when every score is negative.  [highest]
    starts from the literal [0] and not from a score: on the scores
    [-5, -3] the bounds in force are [highest = 0] and [lowest = -5], while
    the maximum of the list is [-3]. *)
Theorem normalization_bounds_all_negative :
  normalization_bounds [ns "m1" (-5); ns "m2" (-3)] = Ok (0, -5)
  /\ minimum [-5; -3] = Some (-5)
  /\ maximum [-5; -3] = Some (-3).
Proof. repeat split; reflexivity. Qed.

(** C3. The design document asks that equal scores all be rewritten to
    [MaxNodeScore], as the scores [10, 10, 10] are.  On three scores equal
    to [-5] the first loop ends with [highest = 0] and [lowest = -5]; the
    test [highest == lowest] fails, [lowest] is not decremented and every
    score is rewritten to [0]. *)
Theorem NormalizeScore_uniform_negative :
  normalization_bounds [ns "m1" (-5); ns "m2" (-5); ns "m3" (-5)] = Ok (0, -5)
  /\ NormalizeScore [ns "m1" (-5); ns "m2" (-5); ns "m3" (-5)]
     = Ok ([ns "m1" 0; ns "m2" 0; ns "m3" 0], NewStatus Success EmptyString)
  /\ NormalizeScore [ns "m1" 10; ns "m2" 10; ns "m3" 10]
     = Ok ([ns "m1" 100; ns "m2" 100; ns "m3" 100], NewStatus Success EmptyString).
Proof. repeat split; reflexivity. Qed.

(** What the second loop computes when minimum and maximum differ: each
    score becomes [(score - lowest) * MaxNodeScore / (highest - lowest)] in
    64-bit arithmetic, with [lowest] the minimum of the scores and [highest]
    the larger of [0] and their maximum.  Whenever
    [(highest - lowest) * MaxNodeScore] fits in 64 bits the value is the
    exact integer quotient. *)
Lemma NormalizeScore_rescales (scores : NodeScoreList) (lo hi : Z) :
  scores <> [] ->
  int64_scores scores ->
  minimum (framework.Score <$> scores) = Some lo ->
  maximum (framework.Score <$> scores) = Some hi ->
  lo <> hi ->
  MaxNodeScore = 100
  /\ (exists highest,
        normalization_bounds scores = Ok (highest, lo)
        /\ highest = Z.max 0 hi
        /\ NormalizeScore scores
           = Ok ((fun n =>
                    {| Name := Name n;
                       framework.Score :=
                         Int64.wrap
                           (Int64.mul (Int64.sub (framework.Score n) lo) MaxNodeScore
                            ÷ Int64.sub highest lo) |}) <$> scores,
                 NewStatus Success EmptyString)
        /\ ((highest - lo) * MaxNodeScore <= Int64.max_int ->
            Forall (fun n =>
                      Int64.wrap
                        (Int64.mul (Int64.sub (framework.Score n) lo) MaxNodeScore
                         ÷ Int64.sub highest lo)
                      = (framework.Score n - lo) * MaxNodeScore ÷ (highest - lo))
                   scores))
  /\ NormalizeScore [ns "m1" 0; ns "m2" 50; ns "m3" 100]
     = Ok ([ns "m1" 0; ns "m2" 50; ns "m3" 100], NewStatus Success EmptyString).
Proof.
  intros Hne H64 Hmin Hmax Hdiff.
  split; [reflexivity|]. split; [|reflexivity].
  destruct scores as [|first rest]; [contradiction|].
  destruct (normalization_bounds_facts first rest H64)
    as (highest & lowest & m & l0 & Hmin' & Hmax' & Hhi & Hlo & Hnb
        & Hrhi & Hrlo & Hlt & Hbetween).
  rewrite Hmin in Hmin'. rewrite Hmax in Hmax'.
  injection Hmin' as <-. injection Hmax' as <-.
  assert (Hle : lo <= hi).
  { destruct (bounds_facts first rest H64)
      as (h & l & _ & Hl & (m & Hm & ->) & _ & _ & _ & Hb).
    rewrite Hmin in Hl. rewrite Hmax in Hm. injection Hl as <-. injection Hm as <-.
    destruct (fold_max_spec (framework.Score <$> rest) (framework.Score first))
      as (Hge & _ & _).
    destruct (fold_min_spec (framework.Score <$> rest) (framework.Score first))
      as (Hmle & _ & _).
    cbn in Hmin, Hmax. injection Hmin as <-. injection Hmax as <-. lia. }
  destruct (Z.eqb_spec (Z.max 0 hi) lo) as [Heq | _]; [lia|].
  subst lowest. exists highest. split; [exact Hnb|]. split; [exact Hhi|]. split.
  - exact (NormalizeScore_nonempty _ _ _ H64 Hnb).
  - intros Hfit. eapply Forall_impl; [exact Hbetween|].
    cbv beta. intros n Hn.
    exact (proj1 (rescaled_exact highest lo _ Hrhi Hrlo Hlt Hn Hfit)).
Qed.

Lemma NormalizeScore_rescales_witness :
  exists highest,
    normalization_bounds [ns "m1" 3; ns "m2" (-7); ns "m3" 13] = Ok (highest, -7)
    /\ NormalizeScore [ns "m1" 3; ns "m2" (-7); ns "m3" 13]
       = Ok ([ns "m1" 50; ns "m2" 0; ns "m3" 100], NewStatus Success EmptyString).
Proof.
  destruct (NormalizeScore_rescales [ns "m1" 3; ns "m2" (-7); ns "m3" 13] (-7) 13)
    as (_ & (highest & Hnb & _ & Hrun & _) & _).
  - discriminate.
  - int64_list.
  - reflexivity.
  - reflexivity.
  - lia.
  - exists highest. split; [exact Hnb|].
    rewrite Hrun. injection Hnb as <-. reflexivity.
Defined.

(** C4. The design document asks that, when the minimum and the maximum of
    the scores differ, each score be rewritten to
    [(score - lowest) * MaxNodeScore / (highest - lowest)], with [lowest] the
    minimum and [highest] the maximum, as the scores [0, 50, 100] are.  On
    the scores [-5, -3] the source divides by [0 - -5], [highest] having
    started from [0]: the second score is rewritten to [40], where the
    formula gives [100].  On the scores [0, 2^61, 2^62] the product wraps in
    64 bits: the second score is rewritten to [-2], where the formula gives
    [50]. *)
Theorem NormalizeScore_formula_diverges :
  (NormalizeScore [ns "m1" (-5); ns "m2" (-3)]
   = Ok ([ns "m1" 0; ns "m2" 40], NewStatus Success EmptyString)
   /\ minimum [-5; -3] = Some (-5)
   /\ maximum [-5; -3] = Some (-3)
   /\ (-3 - -5) * MaxNodeScore ÷ (-3 - -5) = 100)
  /\ (NormalizeScore [ns "m1" 0; ns "m2" (2 ^ 61); ns "m3" (2 ^ 62)]
      = Ok ([ns "m1" 0; ns "m2" (-2); ns "m3" 0], NewStatus Success EmptyString)
      /\ minimum [0; 2 ^ 61; 2 ^ 62] = Some 0
      /\ maximum [0; 2 ^ 61; 2 ^ 62] = Some (2 ^ 62)
      /\ (2 ^ 61 - 0) * MaxNodeScore ÷ (2 ^ 62 - 0) = 50)
  /\ NormalizeScore [ns "m1" 0; ns "m2" 50; ns "m3" 100]
     = Ok ([ns "m1" 0; ns "m2" 50; ns "m3" 100], NewStatus Success EmptyString).
Proof. repeat split; vm_compute; reflexivity. Qed.

(** C8. The design document, and the comment on the second loop, give
    [0, MaxNodeScore] as the range of the rewritten scores.  The product
    [(score - lowest) * MaxNodeScore] is computed in 64 bits and wraps: on
    the scores [0, 2^61, 2^62] the second entry is rewritten to [-2]. *)
Theorem NormalizeScore_overflow :
  NormalizeScore [ns "m1" 0; ns "m2" (2 ^ 61); ns "m3" (2 ^ 62)]
  = Ok ([ns "m1" 0; ns "m2" (-2); ns "m3" 0], NewStatus Success EmptyString).
Proof. vm_compute. reflexivity. Qed.

(** The range holds whenever the product cannot overflow. *)
Lemma NormalizeScore_range (scores : NodeScoreList) hi lo :
  int64_scores scores ->
  normalization_bounds scores = Ok (hi, lo) ->
  (hi - lo) * MaxNodeScore <= Int64.max_int ->
  exists scores',
    NormalizeScore scores = Ok (scores', NewStatus Success EmptyString)
    /\ Forall (fun n => 0 <= framework.Score n <= MaxNodeScore) scores'.
Proof.
  intros H64 Hnb Hfit. eexists. split; [exact (NormalizeScore_nonempty _ _ _ H64 Hnb)|].
  destruct scores as [|first rest]; [discriminate Hnb|].
  destruct (normalization_bounds_facts first rest H64)
    as (hi' & lo' & m & l0 & _ & _ & _ & _ & Hnb' & Hrhi & Hrlo & Hlt & Hbetween).
  rewrite Hnb in Hnb'. injection Hnb' as <- <-.
  rewrite Forall_fmap. eapply Forall_impl; [exact Hbetween|].
  cbv beta. intros n Hn.
  exact (proj2 (rescaled_exact hi lo _ Hrhi Hrlo Hlt Hn Hfit)).
Qed.

(** C10. On every non-empty slice NormalizeScore returns the slice it was
    given with only the [Score] fields rewritten: same length, same entries
    in the same order as far as [Name] goes. *)
Theorem NormalizeScore_frame (scores : NodeScoreList) :
  scores <> [] ->
  int64_scores scores ->
  exists scores',
    NormalizeScore scores = Ok (scores', NewStatus Success EmptyString)
    /\ length scores' = length scores
    /\ Name <$> scores' = Name <$> scores
    /\ forall i n, scores !! i = Some n ->
         exists v, scores' !! i = Some {| Name := Name n; framework.Score := v |}.
Proof.
  intros Hne H64. destruct scores as [|first rest]; [contradiction|].
  destruct (normalization_bounds_facts first rest H64)
    as (hi & lo & m & l0 & _ & _ & _ & _ & Hnb & _).
  exists (rescale_entry hi lo <$> first :: rest).
  split; [exact (NormalizeScore_nonempty _ _ _ H64 Hnb)|].
  split; [apply length_fmap|].
  split.
  - rewrite <- list_fmap_compose. reflexivity.
  - intros i n Hi. exists (rescaled hi lo (framework.Score n)).
    rewrite list_lookup_fmap, Hi. reflexivity.
Qed.

Lemma NormalizeScore_frame_witness :
  exists scores',
    NormalizeScore [ns "m1" 7; ns "m2" 7] = Ok (scores', NewStatus Success EmptyString)
    /\ Name <$> scores' = ["m1"; "m2"].
Proof.
  destruct (NormalizeScore_frame [ns "m1" 7; ns "m2" 7])
    as (scores' & Hrun & _ & Hnames & _).
  - discriminate.
  - int64_list.
  - exists scores'. split; [exact Hrun | exact Hnames].
Defined.

(** ** Filter *)

Section String_facts.

Lemma length_append (s t : string) :
  String.length (s +:+ t) = (String.length s + String.length t)%nat.
Proof. induction s as [|a s IH]; simpl; [reflexivity | now f_equal]. Qed.

(** A reason that carries more than the prefix differs from the prefix. *)
Lemma reason_with_error_differs (prefix err : string) :
  (prefix +:+ " ") +:+ err <> prefix.
Proof.
  intros Heq. apply (f_equal String.length) in Heq.
  rewrite !length_append in Heq. cbn in Heq. lia.
Qed.

End String_facts.

Section Filter_facts.
Context {filterPkg : FilterPackage}.

Variables (y : Yoda) (pod : v1.Pod) (node : nodeinfo.NodeInfo).

Let name : string := nodeinfo.NodeName node.

(** The store could not answer: one call, and the error text in the reason. *)
Lemma Filter_calls_failed currentScv err :
  Get (scvClient y) name = (currentScv, Some err) ->
  Filter_calls y pod node
  = (NewStatus Unschedulable ((("Node:" +:+ name) +:+ " ") +:+ err),
     [CallGet name]).
Proof.
  intros Hget. unfold Filter_calls, perform. fold name. rewrite Hget.
  reflexivity.
Qed.

(** The store answered: the device-count check runs, and the memory and
    clock checks run only after it has passed. *)
Lemma Filter_calls_found currentScv :
  Get (scvClient y) name = (currentScv, None) ->
  Filter_calls y pod node
  = let number := (PodFitsNumber pod currentScv).2 in
    if (PodFitsNumber pod currentScv).1
    then (if (PodFitsMemory number pod currentScv).1
             && (PodFitsClock number pod currentScv).1
          then NewStatus Success EmptyString
          else NewStatus Unschedulable ("Node:" +:+ name),
          [CallGet name; CallPodFitsNumber;
           CallPodFitsMemory number; CallPodFitsClock number])
    else (NewStatus Unschedulable ("Node:" +:+ name),
          [CallGet name; CallPodFitsNumber]).
Proof.
  intros Hget. unfold Filter_calls, perform. fold name. rewrite Hget.
  cbn. destruct (PodFitsNumber pod currentScv) as [[|] number]; [|reflexivity].
  cbn. destruct (PodFitsMemory number pod currentScv) as [[|] ?];
    destruct (PodFitsClock number pod currentScv) as [[|] ?]; reflexivity.
Qed.

(** No fit on the device count: Filter stops after two calls. *)
Lemma Filter_calls_no_fit currentScv :
  Get (scvClient y) name = (currentScv, None) ->
  (PodFitsNumber pod currentScv).1 = false ->
  Filter_calls y pod node
  = (NewStatus Unschedulable ("Node:" +:+ name), [CallGet name; CallPodFitsNumber]).
Proof.
  intros Hget Hno. rewrite (Filter_calls_found _ Hget). cbv zeta.
  rewrite Hno. reflexivity.
Qed.

Lemma Filter_success_iff currentScv :
  Get (scvClient y) name = (currentScv, None) ->
  code (Filter y pod node) = Success <->
  (PodFitsNumber pod currentScv).1 = true
  /\ (PodFitsMemory (PodFitsNumber pod currentScv).2 pod currentScv).1 = true
  /\ (PodFitsClock (PodFitsNumber pod currentScv).2 pod currentScv).1 = true.
Proof.
  intros Hget. unfold Filter. rewrite (Filter_calls_found _ Hget). cbv zeta.
  destruct (PodFitsNumber pod currentScv) as [[|] number]; cbn [fst snd].
  - destruct (PodFitsMemory number pod currentScv) as [[|] ?];
      destruct (PodFitsClock number pod currentScv) as [[|] ?]; cbn;
      intuition discriminate.
  - cbn. intuition discriminate.
Qed.

(** A machine that is not accepted is rejected with its name alone as the
    reason. *)
Lemma Filter_rejected currentScv :
  Get (scvClient y) name = (currentScv, None) ->
  code (Filter y pod node) <> Success ->
  Filter y pod node = NewStatus Unschedulable ("Node:" +:+ name).
Proof.
  intros Hget. unfold Filter. rewrite (Filter_calls_found _ Hget). cbv zeta.
  destruct (PodFitsNumber pod currentScv) as [[|] number]; cbn [fst snd];
    [|reflexivity].
  destruct (_ && _); cbn; [intros []; reflexivity | reflexivity].
Qed.

End Filter_facts.

(** C5. Once the store has answered for the machine, Filter runs the
    device-count check first.  If that check reports no fit, Filter returns
    Unschedulable at once and the calls it has made are the lookup and the
    device-count check: the memory and clock checks are not performed.  And
    Filter returns Success exactly when the device-count check, the memory
    check and the clock check (the last two on the device that the first one
    matched) all pass.  The three checks belong to the package [filter]; the
    statement holds for every implementation of them. *)
Theorem Filter_short_circuit {filterPkg : FilterPackage}
    (y : Yoda) (pod : v1.Pod) (node : nodeinfo.NodeInfo) (currentScv : scv.Scv) :
  Get (scvClient y) (nodeinfo.NodeName node) = (currentScv, None) ->
  ((PodFitsNumber pod currentScv).1 = false ->
     Filter_calls y pod node
     = (NewStatus Unschedulable ("Node:" +:+ nodeinfo.NodeName node),
        [CallGet (nodeinfo.NodeName node); CallPodFitsNumber]))
  /\ (code (Filter y pod node) = Success <->
        (PodFitsNumber pod currentScv).1 = true
        /\ (PodFitsMemory (PodFitsNumber pod currentScv).2 pod currentScv).1 = true
        /\ (PodFitsClock (PodFitsNumber pod currentScv).2 pod currentScv).1 = true).
Proof.
  intros Hget. split.
  - apply Filter_calls_no_fit. exact Hget.
  - apply Filter_success_iff. exact Hget.
Qed.

Lemma Filter_short_circuit_witness :
  Filter_calls (filterPkg := design.filter_package) cluster.plugin cluster.job (cluster.node "M2")
  = (NewStatus Unschedulable "Node:M2", [CallGet "M2"; CallPodFitsNumber]).
Proof.
  apply (Filter_short_circuit (filterPkg := design.filter_package)
           cluster.plugin cluster.job (cluster.node "M2") cluster.M2).
  - reflexivity.
  - reflexivity.
Defined.

(** With the three checks read as the design document describes them:
    a machine none of whose device entries has enough free units fails
    after the device-count check alone, and a machine passes exactly when
    the first entry with enough free units also has enough memory and
    clock. *)
Lemma Filter_design (y : Yoda) (pod : v1.Pod) (node : nodeinfo.NodeInfo)
    (inventory : scv.Scv) :
  Get (scvClient y) (nodeinfo.NodeName node) = (inventory, None) ->
  (Forall (fun d => (scv.count d < v1.count (v1.Request pod))%N)
          (scv.devices inventory) ->
     Filter_calls (filterPkg := design.filter_package) y pod node
     = (NewStatus Unschedulable ("Node:" +:+ nodeinfo.NodeName node),
        [CallGet (nodeinfo.NodeName node); CallPodFitsNumber]))
  /\ (code (Filter (filterPkg := design.filter_package) y pod node) = Success <->
        exists i d,
          scv.devices inventory !! i = Some d
          /\ (v1.count (v1.Request pod) <= scv.count d)%N
          /\ (forall j d', scv.devices inventory !! j = Some d' -> (j < i)%nat ->
                (scv.count d' < v1.count (v1.Request pod))%N)
          /\ (v1.memoryPerUnit (v1.Request pod) <= scv.memoryPerUnit d)%N
          /\ (v1.clockPerUnit (v1.Request pod) <= scv.clockPerUnit d)%N).
Proof.
  intros Hget.
  pose proof (Filter_calls_no_fit (filterPkg := design.filter_package)
                y pod node inventory Hget) as Hshort.
  pose proof (Filter_success_iff (filterPkg := design.filter_package)
                y pod node inventory Hget) as Hiff.
  split.
  - intros Hnone. apply Hshort. cbn. unfold design.PodFitsNumber.
    replace (list_find _ _) with (@None (nat * scv.Device)); [reflexivity|].
    symmetry. apply list_find_None.
    eapply Forall_impl; [exact Hnone|]. cbv beta. intros d Hd. lia.
  - rewrite Hiff. cbn. unfold design.PodFitsNumber, design.PodFitsMemory, design.PodFitsClock.
    destruct (list_find _ _) as [[i d]|] eqn:Hfind.
    + apply list_find_Some in Hfind as (Hi & Hfit & Hfirst). cbn. rewrite Hi. cbn.
      rewrite !bool_decide_eq_true. split.
      * intros (_ & Hm & Hc). exists i, d. repeat split; try assumption.
        intros j d' Hj Hlt. specialize (Hfirst j d' Hj Hlt). lia.
      * intros (i' & d' & Hi' & Hfit' & Hfirst' & Hm & Hc).
        assert (i' = i) as ->.
        { destruct (Nat.lt_trichotomy i' i) as [Hlt | [Heq | Hgt]]; [|exact Heq|].
          - destruct (Hfirst i' d' Hi' Hlt). exact Hfit'.
          - specialize (Hfirst' i d Hi Hgt). lia. }
        rewrite Hi in Hi'. injection Hi' as <-. repeat split; assumption.
    + apply list_find_None in Hfind. cbn. split; [intros [? _]; discriminate|].
      intros (i & d & Hi & Hfit & _). rewrite Forall_forall in Hfind.
      destruct (Hfind d); [|exact Hfit]. eapply list_elem_of_lookup_2. exact Hi.
Qed.

(** C6. When the store cannot answer for a machine, Filter returns the
    code Unschedulable (not Error) with the reason
    ["Node:" + name + " " + err.Error()], which carries the text of the
    lookup error.  A machine the store answered for and that does not fit is
    rejected with the reason ["Node:" + name] alone, so the two reasons are
    never the same string. *)
Theorem Filter_lookup_failure {filterPkg : FilterPackage}
    (y : Yoda) (pod : v1.Pod) (node : nodeinfo.NodeInfo)
    (currentScv : scv.Scv) (err : error) :
  Get (scvClient y) (nodeinfo.NodeName node) = (currentScv, Some err) ->
  Filter y pod node
  = NewStatus Unschedulable ((("Node:" +:+ nodeinfo.NodeName node) +:+ " ") +:+ err)
  /\ code (Filter y pod node) <> Error
  /\ forall (y' : Yoda) (pod' : v1.Pod) (inventory : scv.Scv),
       Get (scvClient y') (nodeinfo.NodeName node) = (inventory, None) ->
       code (Filter y' pod' node) <> Success ->
       Filter y' pod' node
       = NewStatus Unschedulable ("Node:" +:+ nodeinfo.NodeName node)
       /\ message (Filter y pod node) <> message (Filter y' pod' node).
Proof.
  intros Hget.
  assert (Hfail : Filter y pod node
    = NewStatus Unschedulable ((("Node:" +:+ nodeinfo.NodeName node) +:+ " ") +:+ err)).
  { unfold Filter. rewrite (Filter_calls_failed y pod node _ _ Hget). reflexivity. }
  split; [exact Hfail|]. split; [rewrite Hfail; discriminate|].
  intros y' pod' inventory Hget' Hreject.
  pose proof (Filter_rejected y' pod' node inventory Hget' Hreject) as Hplain.
  split; [exact Hplain|]. rewrite Hfail, Hplain. cbn [message].
  apply reason_with_error_differs.
Qed.

Lemma Filter_lookup_failure_witness :
  Filter (filterPkg := design.filter_package) cluster.plugin cluster.job (cluster.node "M9")
  = NewStatus Unschedulable "Node:M9 not found"
  /\ Filter (filterPkg := design.filter_package)
       {| handle := cluster.snapshot; scvClient := cluster.store_of cluster.M3 |}
       cluster.job (cluster.node "M9")
     = NewStatus Unschedulable "Node:M9".
Proof.
  destruct (Filter_lookup_failure (filterPkg := design.filter_package)
              cluster.plugin cluster.job (cluster.node "M9") cluster.unknown "not found")
    as (Hfail & _ & Hother).
  - reflexivity.
  - split; [exact Hfail|].
    apply (Hother {| handle := cluster.snapshot; scvClient := cluster.store_of cluster.M3 |}
                  cluster.job cluster.M3).
    + reflexivity.
    + discriminate.
Defined.

(** ** Score *)

Section Score_facts.
Context {filterPkg : FilterPackage} {scorePkg : ScorePackage} {strconv : Strconv}.

Variables (y : Yoda) (state : CycleState) (p : v1.Pod) (nodeName : string).

(** Score returns the calculated score with Success only when the two
    lookups and the calculation all came back without an error. *)
Lemma Score_success nodeInfo currentScv uNodeScore :
  NodeInfos_Get (handle y) nodeName = (nodeInfo, None) ->
  Get (scvClient y) nodeName = (currentScv, None) ->
  CalculateScore currentScv state p nodeInfo = (uNodeScore, None) ->
  Score y state p nodeName
  = (Uint64ToInt64 uNodeScore, NewStatus Success EmptyString).
Proof. intros Hnode Hget Hcalc. unfold Score. now rewrite Hnode, Hget, Hcalc. Qed.

(** An error of the score calculation comes back as the status. *)
Lemma Score_calculation_error nodeInfo currentScv uNodeScore err :
  NodeInfos_Get (handle y) nodeName = (nodeInfo, None) ->
  Get (scvClient y) nodeName = (currentScv, None) ->
  CalculateScore currentScv state p nodeInfo = (uNodeScore, Some err) ->
  Score y state p nodeName
  = (0, NewStatus Error ("Score Node Error: " +:+ err)).
Proof. intros Hnode Hget Hcalc. unfold Score. now rewrite Hnode, Hget, Hcalc. Qed.

(** When the calculation is bound to fail, whatever the lookups do the
    status is Error and the score is [0]. *)
Lemma Score_error_status :
  (forall currentScv nodeInfo,
     is_Some (CalculateScore currentScv state p nodeInfo).2) ->
  exists reason, Score y state p nodeName = (0, NewStatus Error reason).
Proof.
  intros Hfails. unfold Score.
  destruct (NodeInfos_Get (handle y) nodeName) as [nodeInfo [e1|]]; [eauto|].
  destruct (Get (scvClient y) nodeName) as [currentScv [e2|]]; [eauto|].
  specialize (Hfails currentScv nodeInfo).
  destruct (CalculateScore currentScv state p nodeInfo) as [u [e3|]]; [eauto|].
  destruct Hfails as [? [=]].
Qed.

End Score_facts.

(** The score calculation of the design document reports the missing
    maximum, whichever of the three it is. *)
Lemma CalculateScore_missing weighting inventory (state : CycleState) pod nodeInfo d :
  d ∈ design.dimensions ->
  state !! d = None ->
  design.CalculateScore weighting inventory state pod nodeInfo
  = (0%N, Some "AggregationMissing").
Proof.
  unfold design.dimensions, design.CalculateScore. intros Hd Hnone.
  repeat (apply elem_of_cons in Hd as [-> | Hd]); [..| inversion Hd];
    rewrite Hnone; repeat case_match; reflexivity.
Qed.

(** C7. [score.CalculateScore] is the function that reads the cycle state;
    it is taken as any implementation that reports an error whenever one of
    the three recorded maxima is absent from the state, as the design
    document requires of it.  Then, in a cycle whose state lacks a required
    maximum, Score returns the score [0] together with a status of code
    Error, never Success; and when both lookups succeeded, the reason of that
    status is ["Score Node Error: "] followed by the text of the calculation's
    error: the error is handed on to the caller, no score is made up for
    it. *)
Theorem Score_missing_maximum
    {filterPkg : FilterPackage} {scorePkg : ScorePackage} {strconv : Strconv}
    (y : Yoda) (state : CycleState) (p : v1.Pod) (nodeName dimension : string) :
  (forall currentScv (st : CycleState) pod nodeInfo d,
     d ∈ design.dimensions -> st !! d = None ->
     is_Some (CalculateScore currentScv st pod nodeInfo).2) ->
  dimension ∈ design.dimensions ->
  state !! dimension = None ->
  (exists reason, Score y state p nodeName = (0, NewStatus Error reason))
  /\ code (Score y state p nodeName).2 <> Success
  /\ forall nodeInfo currentScv,
       NodeInfos_Get (handle y) nodeName = (nodeInfo, None) ->
       Get (scvClient y) nodeName = (currentScv, None) ->
       exists err,
         (CalculateScore currentScv state p nodeInfo).2 = Some err
         /\ Score y state p nodeName
            = (0, NewStatus Error ("Score Node Error: " +:+ err)).
Proof.
  intros Hcontract Hdim Habsent.
  assert (Hfails : forall currentScv nodeInfo,
            is_Some (CalculateScore currentScv state p nodeInfo).2)
    by (intros; eapply Hcontract; eassumption).
  destruct (Score_error_status y state p nodeName Hfails) as [reason Hscore].
  split; [eauto|]. split; [rewrite Hscore; discriminate|].
  intros nodeInfo currentScv Hnode Hget.
  destruct (CalculateScore currentScv state p nodeInfo) as [u e] eqn:Hcalc.
  specialize (Hfails currentScv nodeInfo). rewrite Hcalc in Hfails.
  destruct Hfails as [err Herr]. cbn in Herr. subst e.
  exists err. split; [reflexivity|].
  eapply Score_calculation_error; eassumption.
Qed.

Lemma Score_missing_maximum_witness :
  Score (filterPkg := design.filter_package)
        (scorePkg := design.score_package cluster.weighting)
        (strconv := cluster.quotes)
        cluster.plugin {["device-count" := 5%N; "clock" := 8%N]} cluster.job "M1"
  = (0, NewStatus Error "Score Node Error: AggregationMissing").
Proof.
  destruct (Score_missing_maximum
              (filterPkg := design.filter_package)
              (scorePkg := design.score_package cluster.weighting)
              (strconv := cluster.quotes)
              cluster.plugin {["device-count" := 5%N; "clock" := 8%N]} cluster.job
              "M1" "memory")
    as (_ & _ & Hpropagated).
  - intros currentScv st pod nodeInfo d Hd Hnone. cbn.
    rewrite (CalculateScore_missing _ _ _ _ _ d Hd Hnone). eauto.
  - unfold design.dimensions. set_solver.
  - reflexivity.
  - destruct (Hpropagated (cluster.node "M1") cluster.M1 eq_refl eq_refl)
      as (err & Herr & Hscore).
    vm_compute in Herr. injection Herr as <-. exact Hscore.
Defined.

(** ** Less *)

Section Less_facts.

Variables (key : PodInfo -> Z * Z) (y : Yoda).

Let less : PodInfo -> PodInfo -> bool :=
  Less (sortPkg := design.sort_package key) y.

(** The comparator, read on the key. *)
Lemma Less_key (a b : PodInfo) :
  less a b = true <->
  (key a).1 < (key b).1 \/ ((key a).1 = (key b).1 /\ (key a).2 < (key b).2).
Proof.
  unfold less, Less, sort_Less, design.sort_package, design.Less.
  rewrite orb_true_iff, andb_true_iff, !Z.ltb_lt, Z.eqb_eq.
  reflexivity.
Qed.

Lemma Less_key_false (a b : PodInfo) :
  less a b = false <->
  (key b).1 <= (key a).1 /\ ((key a).1 = (key b).1 -> (key b).2 <= (key a).2).
Proof.
  rewrite <- not_true_iff_false, Less_key. lia.
Qed.

End Less_facts.

(** C9. With [sort.Less] comparing workloads on an ordering key, whatever
    the key (declared priority then arrival time, for one), the comparator
    of the plugin is a strict weak ordering: no workload comes before
    itself; two workloads never come before each other; coming before is
    transitive; and so is being incomparable. *)
Theorem Less_strict_weak_ordering (key : PodInfo -> Z * Z) (y : Yoda) :
  let less := Less (sortPkg := design.sort_package key) y in
  (forall a, less a a = false)
  /\ (forall a b, less a b = true -> less b a = false)
  /\ (forall a b c, less a b = true -> less b c = true -> less a c = true)
  /\ (forall a b c,
        less a b = false -> less b a = false ->
        less b c = false -> less c b = false ->
        less a c = false /\ less c a = false).
Proof.
  cbv zeta. split; [|split; [|split]].
  - intros a. apply Less_key_false. lia.
  - intros a b. rewrite Less_key, Less_key_false. lia.
  - intros a b c. rewrite !Less_key. lia.
  - intros a b c. rewrite !Less_key_false. lia.
Qed.

Lemma Less_strict_weak_ordering_witness :
  let less :=
    Less (sortPkg := design.sort_package design.priority_then_arrival) cluster.plugin in
  less (cluster.queued 9 40) (cluster.queued 2 10) = true
  /\ less (cluster.queued 9 40) (cluster.queued 2 30) = true
  /\ less (cluster.queued 2 10) (cluster.queued 9 40) = false
  /\ less (cluster.queued 2 10) (cluster.queued 2 10) = false.
Proof.
  destruct (Less_strict_weak_ordering design.priority_then_arrival cluster.plugin)
    as (Hirr & Hasym & Htrans & _).
  cbv zeta. split; [reflexivity|]. split; [|split].
  - apply (Htrans _ (cluster.queued 2 10)); reflexivity.
  - apply Hasym. reflexivity.
  - apply Hirr.
Defined.

(** ** The end-to-end example of the design document

    Request [{count:1, memory:4, clock:2}] against M1, M2 and M3: M2 fails on
    the device count, M3 on memory and clock, M1 passes; normalizing the
    score of the one machine left yields [MaxNodeScore]. *)

Lemma Filter_cluster :
  let run name :=
    Filter_calls (filterPkg := design.filter_package)
                 cluster.plugin cluster.job (cluster.node name) in
  run "M1" = (NewStatus Success EmptyString,
              [CallGet "M1"; CallPodFitsNumber; CallPodFitsMemory 0; CallPodFitsClock 0])
  /\ run "M2" = (NewStatus Unschedulable "Node:M2", [CallGet "M2"; CallPodFitsNumber])
  /\ run "M3" = (NewStatus Unschedulable "Node:M3",
                 [CallGet "M3"; CallPodFitsNumber; CallPodFitsMemory 0; CallPodFitsClock 0]).
Proof. repeat split; reflexivity. Qed.

Lemma NormalizeScore_single name score :
  0 <= score <= Int64.max_int ->
  NormalizeScore [ns name score]
  = Ok ([ns name MaxNodeScore], NewStatus Success EmptyString).
Proof.
  intros Hscore.
  apply (NormalizeScore_uniform [ns name score] score);
    [discriminate | exact Hscore | repeat constructor].
Qed.

(** * Further properties of the plugin *)

(** ** Minimum and maximum *)

Section Extrema.

Lemma minimum_spec (l : list Z) lo :
  minimum l = Some lo <-> lo ∈ l /\ Forall (fun x => lo <= x) l.
Proof.
  destruct l as [|x xs]; cbn.
  - split; [discriminate | intros [Hin _]; inversion Hin].
  - destruct (fold_min_spec xs x) as (Hle & Hall & Hin).
    set (f := fold_left Z.min xs x) in *. split.
    + intros [= <-]. split.
      * destruct Hin as [-> | Hin]; [left | right; exact Hin].
      * constructor; assumption.
    + intros [Hlo Hlow]. f_equal.
      assert (Hf : f ∈ x :: xs) by (destruct Hin as [-> | Hin]; [left | right; exact Hin]).
      rewrite Forall_forall in Hlow, Hall.
      assert (lo <= f) by (apply Hlow; exact Hf).
      assert (f <= lo).
      { apply elem_of_cons in Hlo as [-> | Hlo]; [exact Hle | apply Hall; exact Hlo]. }
      lia.
Qed.

Lemma maximum_spec (l : list Z) m :
  maximum l = Some m <-> m ∈ l /\ Forall (fun x => x <= m) l.
Proof.
  destruct l as [|x xs]; cbn.
  - split; [discriminate | intros [Hin _]; inversion Hin].
  - destruct (fold_max_spec xs x) as (Hle & Hall & Hin).
    set (f := fold_left Z.max xs x) in *. split.
    + intros [= <-]. split.
      * destruct Hin as [-> | Hin]; [left | right; exact Hin].
      * constructor; assumption.
    + intros [Hm Hup]. f_equal.
      assert (Hf : f ∈ x :: xs) by (destruct Hin as [-> | Hin]; [left | right; exact Hin]).
      rewrite Forall_forall in Hup, Hall.
      assert (f <= m) by (apply Hup; exact Hf).
      assert (m <= f).
      { apply elem_of_cons in Hm as [-> | Hm]; [exact Hle | apply Hall; exact Hm]. }
      lia.
Qed.

Lemma minimum_Permutation (l l' : list Z) : l ≡ₚ l' -> minimum l = minimum l'.
Proof.
  intros Hperm. destruct (minimum l) as [lo|] eqn:Hmin.
  - symmetry. apply minimum_spec. apply minimum_spec in Hmin.
    rewrite <- Hperm. exact Hmin.
  - destruct l; [|discriminate Hmin].
    apply Permutation_nil_l in Hperm. subst. reflexivity.
Qed.

Lemma maximum_Permutation (l l' : list Z) : l ≡ₚ l' -> maximum l = maximum l'.
Proof.
  intros Hperm. destruct (maximum l) as [m|] eqn:Hmax.
  - symmetry. apply maximum_spec. apply maximum_spec in Hmax.
    rewrite <- Hperm. exact Hmax.
  - destruct l; [|discriminate Hmax].
    apply Permutation_nil_l in Hperm. subst. reflexivity.
Qed.

(** The whole run in terms of the minimum [lo] and the maximum [m] of the
    scores. *)
Lemma NormalizeScore_by_extrema (scores : NodeScoreList) lo m :
  int64_scores scores ->
  minimum (framework.Score <$> scores) = Some lo ->
  maximum (framework.Score <$> scores) = Some m ->
  let hi := Z.max 0 m in
  let lo' := if hi =? lo then lo - 1 else lo in
  bounds scores = Ok (hi, lo)
  /\ normalization_bounds scores = Ok (hi, lo')
  /\ NormalizeScore scores
     = Ok (rescale_entry hi lo' <$> scores, NewStatus Success EmptyString)
  /\ Int64.in_range hi /\ Int64.in_range lo'
  /\ lo' < hi
  /\ Forall (fun n => lo' <= framework.Score n <= hi) scores
  /\ lo <= m.
Proof.
  intros H64 Hmin Hmax hi lo'. subst hi lo'.
  destruct scores as [|first rest]; [discriminate Hmin|].
  destruct (normalization_bounds_facts first rest H64)
    as (hi & l' & m' & l0 & Hmin' & Hmax' & -> & -> & Hnb & Hrhi & Hrlo & Hlt & Hbetween).
  rewrite Hmin in Hmin'. rewrite Hmax in Hmax'.
  injection Hmin' as <-. injection Hmax' as <-.
  split; [apply bounds_cons; assumption|].
  split; [exact Hnb|].
  split; [exact (NormalizeScore_nonempty _ _ _ H64 Hnb)|].
  repeat (split; [assumption|]).
  apply minimum_spec in Hmin as [Hin Hlow]. apply maximum_spec in Hmax as [_ Hup].
  rewrite Forall_forall in Hup. apply Hup. exact Hin.
Qed.

End Extrema.

(** ** NormalizeScore, beyond the design document *)

Section Rescale_facts.

(** An entry at the lower bound is rewritten to [0], overflow or not. *)
Lemma rescaled_lowest hi lo : rescaled hi lo lo = 0.
Proof.
  unfold rescaled, Int64.mul, Int64.sub. rewrite Z.sub_diag.
  change (Int64.wrap 0) with 0. rewrite Z.mul_0_l.
  change (Int64.wrap 0) with 0. destruct (Int64.wrap (hi - lo)); reflexivity.
Qed.

Lemma fits_after_adjust lo m :
  lo <= m ->
  (Z.max 0 m - lo) * MaxNodeScore <= Int64.max_int ->
  (Z.max 0 m - (if Z.max 0 m =? lo then lo - 1 else lo)) * MaxNodeScore
  <= Int64.max_int.
Proof.
  unfold MaxNodeScore, Int64.max_int. intros Hle Hfit.
  destruct (Z.eqb_spec (Z.max 0 m) lo); lia.
Qed.

Lemma lookup_rescaled (scores : NodeScoreList) hi lo i n n' :
  scores !! i = Some n ->
  (rescale_entry hi lo <$> scores) !! i = Some n' ->
  n' = rescale_entry hi lo n.
Proof.
  intros Hi Ho. rewrite list_lookup_fmap, Hi in Ho. cbn in Ho. congruence.
Qed.

End Rescale_facts.

(** X1. The bounds of the first loop on any non-empty slice: [lowest] is the
    minimum of the scores and [highest] the larger of [0] and their maximum;
    [lowest] is then decremented exactly when the scores are all equal and
    not negative. *)
Theorem bounds_extrema (scores : NodeScoreList) (lo m : Z) :
  int64_scores scores ->
  minimum (framework.Score <$> scores) = Some lo ->
  maximum (framework.Score <$> scores) = Some m ->
  bounds scores = Ok (Z.max 0 m, lo)
  /\ normalization_bounds scores
     = Ok (Z.max 0 m, if (lo =? m) && (0 <=? m) then lo - 1 else lo).
Proof.
  intros H64 Hmin Hmax.
  destruct (NormalizeScore_by_extrema scores lo m H64 Hmin Hmax)
    as (Hb & Hnb & _ & _ & _ & _ & _ & Hle).
  split; [exact Hb|]. rewrite Hnb. do 2 f_equal.
  destruct (Z.eqb_spec (Z.max 0 m) lo), (Z.eqb_spec lo m), (Z.leb_spec 0 m);
    cbn; try reflexivity; lia.
Qed.

Lemma bounds_extrema_witness :
  bounds [ns "m1" 4; ns "m2" 9; ns "m3" 4] = Ok (9, 4)
  /\ normalization_bounds [ns "m1" 6; ns "m2" 6] = Ok (6, 5).
Proof.
  split.
  - apply (bounds_extrema [ns "m1" 4; ns "m2" 9; ns "m3" 4] 4 9);
      [int64_list | reflexivity | reflexivity].
  - apply (bounds_extrema [ns "m1" 6; ns "m2" 6] 6 6);
      [int64_list | reflexivity | reflexivity].
Defined.

(** X2. The only way NormalizeScore stops with a panic is the read of
    [scores[0]] on the empty slice.  The division never has a zero divisor,
    also when the scores are all equal and when the subtraction wraps. *)
Theorem NormalizeScore_only_panic (scores : NodeScoreList) (p : panic) :
  int64_scores scores ->
  NormalizeScore scores = Panic p ->
  scores = [] /\ p = IndexOutOfRange 0 0.
Proof.
  intros H64 Hpanic. destruct scores as [|first rest].
  - split; [reflexivity|]. cbn in Hpanic. congruence.
  - destruct (normalization_bounds_facts first rest H64)
      as (hi & lo & m & l0 & _ & _ & _ & _ & Hnb & _).
    rewrite (NormalizeScore_nonempty _ _ _ H64 Hnb) in Hpanic. discriminate Hpanic.
Qed.

Lemma NormalizeScore_only_panic_witness :
  @nil NodeScore = [] /\ IndexOutOfRange 0 0 = IndexOutOfRange 0 0.
Proof.
  apply (NormalizeScore_only_panic [] (IndexOutOfRange 0 0));
    [constructor | reflexivity].
Defined.

(** X3. When [(highest - lowest) * MaxNodeScore] fits in 64 bits, with
    [lowest] the minimum and [highest] the larger of [0] and the maximum,
    every rewritten score lies between [0] and [MaxNodeScore]. *)
Theorem NormalizeScore_in_range (scores : NodeScoreList) (lo m : Z) :
  int64_scores scores ->
  minimum (framework.Score <$> scores) = Some lo ->
  maximum (framework.Score <$> scores) = Some m ->
  (Z.max 0 m - lo) * MaxNodeScore <= Int64.max_int ->
  exists out,
    NormalizeScore scores = Ok (out, NewStatus Success EmptyString)
    /\ Forall (fun n => 0 <= framework.Score n <= MaxNodeScore) out.
Proof.
  intros H64 Hmin Hmax Hfit.
  destruct (NormalizeScore_by_extrema scores lo m H64 Hmin Hmax)
    as (_ & _ & Hrun & Hrhi & Hrlo & Hlt & Hbetween & Hle).
  eexists. split; [exact Hrun|].
  rewrite Forall_fmap. eapply Forall_impl; [exact Hbetween|].
  cbv beta. intros n Hn.
  exact (proj2 (rescaled_exact _ _ _ Hrhi Hrlo Hlt Hn (fits_after_adjust lo m Hle Hfit))).
Qed.

Lemma NormalizeScore_in_range_witness :
  exists out,
    NormalizeScore [ns "m1" (-40); ns "m2" 7; ns "m3" 1000]
    = Ok (out, NewStatus Success EmptyString)
    /\ Forall (fun n => 0 <= framework.Score n <= MaxNodeScore) out.
Proof.
  apply (NormalizeScore_in_range [ns "m1" (-40); ns "m2" 7; ns "m3" 1000] (-40) 1000);
    [int64_list | reflexivity | reflexivity | vm_compute; discriminate].
Defined.

(** X4. Under the same condition the rewriting keeps the order of the
    scores: a machine that scored no more than another is not ranked above
    it afterwards. *)
Theorem NormalizeScore_monotone (scores : NodeScoreList) (lo m : Z) :
  int64_scores scores ->
  minimum (framework.Score <$> scores) = Some lo ->
  maximum (framework.Score <$> scores) = Some m ->
  (Z.max 0 m - lo) * MaxNodeScore <= Int64.max_int ->
  exists out,
    NormalizeScore scores = Ok (out, NewStatus Success EmptyString)
    /\ forall i j a b a' b',
         scores !! i = Some a -> scores !! j = Some b ->
         out !! i = Some a' -> out !! j = Some b' ->
         framework.Score a <= framework.Score b ->
         framework.Score a' <= framework.Score b'.
Proof.
  intros H64 Hmin Hmax Hfit.
  destruct (NormalizeScore_by_extrema scores lo m H64 Hmin Hmax)
    as (_ & _ & Hrun & Hrhi & Hrlo & Hlt & Hbetween & Hle).
  pose proof (fits_after_adjust lo m Hle Hfit) as Hfit'.
  eexists. split; [exact Hrun|].
  intros i j a b a' b' Hi Hj Hi' Hj' Hab.
  rewrite (lookup_rescaled _ _ _ _ _ _ Hi Hi'), (lookup_rescaled _ _ _ _ _ _ Hj Hj').
  rewrite Forall_forall in Hbetween.
  assert (Ha := Hbetween a (list_elem_of_lookup_2 _ _ _ Hi)).
  assert (Hb := Hbetween b (list_elem_of_lookup_2 _ _ _ Hj)).
  cbn [framework.Score rescale_entry].
  rewrite (proj1 (rescaled_exact _ _ _ Hrhi Hrlo Hlt Ha Hfit')).
  rewrite (proj1 (rescaled_exact _ _ _ Hrhi Hrlo Hlt Hb Hfit')).
  apply Z.quot_le_mono; [lia|]. unfold MaxNodeScore. lia.
Qed.

Lemma NormalizeScore_monotone_witness :
  exists out,
    NormalizeScore [ns "m1" 30; ns "m2" 7; ns "m3" 8] = Ok (out, NewStatus Success EmptyString)
    /\ forall b' c', out !! 1%nat = Some b' -> out !! 2%nat = Some c' ->
         framework.Score b' <= framework.Score c'.
Proof.
  destruct (NormalizeScore_monotone [ns "m1" 30; ns "m2" 7; ns "m3" 8] 7 30)
    as (out & Hrun & Hmono);
    [int64_list | reflexivity | reflexivity | vm_compute; discriminate |].
  exists out. split; [exact Hrun|]. intros b' c' Hb Hc.
  apply (Hmono 1%nat 2%nat (ns "m2" 7) (ns "m3" 8) b' c');
    [reflexivity | reflexivity | exact Hb | exact Hc | cbn; lia].
Defined.

(** X5. Unless the scores are all equal and not negative, a machine with
    the lowest score is rewritten to [0], whatever the size of the scores.
    If moreover some score is not negative and
    [(highest - lowest) * MaxNodeScore] fits in 64 bits, a machine with the
    highest score is rewritten to [MaxNodeScore]. *)
Theorem NormalizeScore_endpoints (scores : NodeScoreList) (lo m : Z) :
  int64_scores scores ->
  minimum (framework.Score <$> scores) = Some lo ->
  maximum (framework.Score <$> scores) = Some m ->
  lo <> m \/ m < 0 ->
  exists out,
    NormalizeScore scores = Ok (out, NewStatus Success EmptyString)
    /\ (forall i n n',
          scores !! i = Some n -> out !! i = Some n' ->
          framework.Score n = lo -> framework.Score n' = 0)
    /\ (0 <= m -> (m - lo) * MaxNodeScore <= Int64.max_int ->
        forall i n n',
          scores !! i = Some n -> out !! i = Some n' ->
          framework.Score n = m -> framework.Score n' = MaxNodeScore).
Proof.
  intros H64 Hmin Hmax Hnondeg.
  destruct (NormalizeScore_by_extrema scores lo m H64 Hmin Hmax)
    as (_ & _ & Hrun & Hrhi & Hrlo & Hlt & Hbetween & Hle).
  destruct (Z.eqb_spec (Z.max 0 m) lo) as [Heq | Hne]; [lia|].
  eexists. split; [exact Hrun|]. split.
  - intros i n n' Hi Hi' Hn. rewrite (lookup_rescaled _ _ _ _ _ _ Hi Hi').
    cbn [framework.Score rescale_entry]. rewrite Hn. apply rescaled_lowest.
  - intros H0 Hfit i n n' Hi Hi' Hn. rewrite (lookup_rescaled _ _ _ _ _ _ Hi Hi').
    cbn [framework.Score rescale_entry]. rewrite Hn.
    rewrite Z.max_r in * by lia.
    rewrite (proj1 (rescaled_exact m lo m Hrhi Hrlo Hlt ltac:(lia) Hfit)).
    rewrite Z.mul_comm. apply Z.quot_mul. lia.
Qed.

Lemma NormalizeScore_endpoints_witness :
  exists out,
    NormalizeScore [ns "m1" 30; ns "m2" 7; ns "m3" 8] = Ok (out, NewStatus Success EmptyString)
    /\ (forall n', out !! 1%nat = Some n' -> framework.Score n' = 0)
    /\ (forall n', out !! 0%nat = Some n' -> framework.Score n' = MaxNodeScore).
Proof.
  destruct (NormalizeScore_endpoints [ns "m1" 30; ns "m2" 7; ns "m3" 8] 7 30)
    as (out & Hrun & Hlow & Hhigh);
    [int64_list | reflexivity | reflexivity | left; lia |].
  exists out. split; [exact Hrun|]. split.
  - intros n' Hn'. exact (Hlow 1%nat (ns "m2" 7) n' eq_refl Hn' eq_refl).
  - intros n' Hn'.
    apply (Hhigh ltac:(lia) ltac:(vm_compute; discriminate) 0%nat (ns "m1" 30) n' eq_refl Hn').
    reflexivity.
Defined.

(** X6. Scores that are all equal are all rewritten to the same value:
    [MaxNodeScore] when the common score is not negative, [0] when it is
    negative.  A single machine is a case of this. *)
Theorem NormalizeScore_equal_scores (scores : NodeScoreList) (c : Z) :
  scores <> [] ->
  Int64.in_range c ->
  Forall (fun n => framework.Score n = c) scores ->
  NormalizeScore scores
  = Ok ((fun n => {| Name := Name n;
                     framework.Score := if 0 <=? c then MaxNodeScore else 0 |})
          <$> scores,
        NewStatus Success EmptyString).
Proof.
  intros Hne Hc Hall. destruct (Z.leb_spec 0 c) as [Hpos | Hneg].
  - apply (NormalizeScore_uniform scores c Hne); [|exact Hall].
    unfold Int64.in_range in Hc. lia.
  - assert (H64 : int64_scores scores).
    { eapply Forall_impl; [exact Hall|]. cbv beta. intros n ->. exact Hc. }
    assert (Hin : c ∈ framework.Score <$> scores).
    { destruct scores as [|first rest]; [contradiction|].
      inversion Hall; subst. left. }
    assert (Hmin : minimum (framework.Score <$> scores) = Some c).
    { apply minimum_spec. split; [exact Hin|]. rewrite Forall_fmap.
      eapply Forall_impl; [exact Hall|]. cbv beta. intros n Hn. cbn. lia. }
    assert (Hmax : maximum (framework.Score <$> scores) = Some c).
    { apply maximum_spec. split; [exact Hin|]. rewrite Forall_fmap.
      eapply Forall_impl; [exact Hall|]. cbv beta. intros n Hn. cbn. lia. }
    destruct (NormalizeScore_by_extrema scores c c H64 Hmin Hmax)
      as (_ & _ & Hrun & _).
    rewrite Hrun. do 2 f_equal.
    rewrite Z.max_l by lia. destruct (Z.eqb_spec 0 c) as [? | _]; [lia|].
    apply Forall_fmap_ext_1. eapply Forall_impl; [exact Hall|].
    cbv beta. intros n Hn. unfold rescale_entry. f_equal.
    rewrite Hn. apply rescaled_lowest.
Qed.

Lemma NormalizeScore_equal_scores_witness :
  NormalizeScore [ns "m1" 42] = Ok ([ns "m1" 100], NewStatus Success EmptyString)
  /\ NormalizeScore [ns "m1" (-1); ns "m2" (-1)]
     = Ok ([ns "m1" 0; ns "m2" 0], NewStatus Success EmptyString).
Proof.
  split.
  - apply (NormalizeScore_equal_scores [ns "m1" 42] 42);
      [discriminate | int64_list | repeat constructor].
  - apply (NormalizeScore_equal_scores [ns "m1" (-1); ns "m2" (-1)] (-1));
      [discriminate | int64_list | repeat constructor].
Defined.

(** X7. Normalizing twice gives what normalizing once gives, provided some
    score is not negative and [(highest - lowest) * MaxNodeScore] fits in
    64 bits. *)
Theorem NormalizeScore_idempotent (scores : NodeScoreList) (lo m : Z) :
  int64_scores scores ->
  minimum (framework.Score <$> scores) = Some lo ->
  maximum (framework.Score <$> scores) = Some m ->
  0 <= m ->
  (m - lo) * MaxNodeScore <= Int64.max_int ->
  exists out,
    NormalizeScore scores = Ok (out, NewStatus Success EmptyString)
    /\ NormalizeScore out = Ok (out, NewStatus Success EmptyString).
Proof.
  intros H64 Hmin Hmax H0 Hfit.
  assert (Hne : scores <> []) by (intros ->; discriminate Hmin).
  destruct (NormalizeScore_by_extrema scores lo m H64 Hmin Hmax)
    as (_ & _ & Hrun & Hrhi & Hrlo & Hlt & Hbetween & Hle).
  rewrite Z.max_r in * by lia.
  eexists. split; [exact Hrun|].
  remember (if m =? lo then lo - 1 else lo) as lo' eqn:Hlo'.
  set (out := rescale_entry m lo' <$> scores).
  assert (Hfit' : (m - lo') * MaxNodeScore <= Int64.max_int).
  { subst lo'. unfold MaxNodeScore, Int64.max_int in *.
    destruct (Z.eqb_spec m lo); lia. }
  assert (Hexact : Forall (fun n =>
            rescaled m lo' (framework.Score n)
            = (framework.Score n - lo') * MaxNodeScore ÷ (m - lo')
            /\ 0 <= rescaled m lo' (framework.Score n) <= MaxNodeScore) scores).
  { eapply Forall_impl; [exact Hbetween|]. cbv beta. intros n Hn.
    exact (rescaled_exact _ _ _ Hrhi Hrlo Hlt Hn Hfit'). }
  assert (Hout64 : int64_scores out).
  { subst out. unfold int64_scores. rewrite Forall_fmap.
    eapply Forall_impl; [exact Hexact|]. cbv beta. intros n [_ Hn]. cbn.
    unfold Int64.in_range, Int64.min_int, Int64.max_int, MaxNodeScore in *. lia. }
  assert (Hrange : Forall (fun x => 0 <= x <= MaxNodeScore) (framework.Score <$> out)).
  { subst out. rewrite !Forall_fmap.
    eapply Forall_impl; [exact Hexact|]. cbv beta. intros n [_ Hn]. exact Hn. }
  assert (Htop : MaxNodeScore ∈ framework.Score <$> out).
  { apply maximum_spec in Hmax as [Hin _].
    apply list_elem_of_fmap in Hin as (n & Hn & Hnin).
    apply list_elem_of_fmap. exists (rescale_entry m lo' n).
    split; [|subst out; apply list_elem_of_fmap; eauto].
    cbn. rewrite <- Hn. rewrite Forall_forall in Hbetween.
    rewrite (proj1 (rescaled_exact m lo' m Hrhi Hrlo Hlt ltac:(lia) Hfit')).
    rewrite Z.mul_comm. symmetry. apply Z.quot_mul. lia. }
  assert (Hmax' : maximum (framework.Score <$> out) = Some MaxNodeScore).
  { apply maximum_spec. split; [exact Htop|].
    eapply Forall_impl; [exact Hrange|]. cbv beta. intros; lia. }
  destruct (Z.eqb_spec m lo) as [Heq | Hdiff].
  - (* all scores equal: every entry is already at MaxNodeScore *)
    assert (Hall : Forall (fun n => framework.Score n = MaxNodeScore) out).
    { subst out. rewrite Forall_fmap. rewrite Forall_forall in Hbetween |- *.
      intros n Hn. specialize (Hbetween n Hn). cbn.
      apply minimum_spec in Hmin as [_ Hlow].
      rewrite Forall_fmap, Forall_forall in Hlow. specialize (Hlow n Hn). cbn in Hlow.
      assert (framework.Score n = lo) as -> by lia.
      subst lo'. unfold rescaled, Int64.sub, Int64.mul.
      subst m. replace (lo - (lo - 1)) with 1 by lia. reflexivity. }
    rewrite (proj2 (NormalizeScore_uniform out MaxNodeScore
               ltac:(subst out; destruct scores; [contradiction | discriminate])
               ltac:(vm_compute; split; discriminate) Hall)).
    do 2 f_equal. rewrite <- (list_fmap_id out) at 2.
    apply Forall_fmap_ext_1. eapply Forall_impl; [exact Hall|].
    cbv beta. intros [name score] Hn. cbn in *. now subst.
  - (* the lowest entry is at 0, the highest at MaxNodeScore *)
    assert (Hbottom : 0 ∈ framework.Score <$> out).
    { apply minimum_spec in Hmin as [Hin _].
      apply list_elem_of_fmap in Hin as (n & Hn & Hnin).
      apply list_elem_of_fmap. exists (rescale_entry m lo' n).
      split; [|subst out; apply list_elem_of_fmap; eauto].
      cbn. rewrite <- Hn. subst lo'. symmetry. apply rescaled_lowest. }
    assert (Hmin' : minimum (framework.Score <$> out) = Some 0).
    { apply minimum_spec. split; [exact Hbottom|].
      eapply Forall_impl; [exact Hrange|]. cbv beta. intros; lia. }
    destruct (NormalizeScore_by_extrema out 0 MaxNodeScore Hout64 Hmin' Hmax')
      as (_ & _ & Hrun' & Hrhi' & Hrlo' & Hlt' & Hbetween' & _).
    change (Z.max 0 MaxNodeScore) with 100 in *.
    change (if 100 =? 0 then 0 - 1 else 0) with 0 in *.
    rewrite Hrun'. do 2 f_equal.
    rewrite <- (list_fmap_id out) at 2.
    apply Forall_fmap_ext_1.
    eapply Forall_impl; [exact Hbetween'|].
    cbv beta. intros [name score] Hn. unfold rescale_entry.
    cbn [framework.Name framework.Score id] in *. f_equal.
    rewrite (proj1 (rescaled_exact 100 0 score Hrhi' Hrlo' Hlt' Hn
                      ltac:(vm_compute; discriminate))).
    rewrite Z.sub_0_r. change (100 - 0) with 100. apply Z.quot_mul. lia.
Qed.

Lemma NormalizeScore_idempotent_witness :
  exists out,
    NormalizeScore [ns "m1" 30; ns "m2" (-7); ns "m3" 8]
    = Ok (out, NewStatus Success EmptyString)
    /\ NormalizeScore out = Ok (out, NewStatus Success EmptyString).
Proof.
  apply (NormalizeScore_idempotent [ns "m1" 30; ns "m2" (-7); ns "m3" 8] (-7) 30);
    [int64_list | reflexivity | reflexivity | lia | vm_compute; discriminate].
Defined.

(** X8. The order of the slice does not matter: two slices that hold the
    same entries in different orders are normalized with the same bounds, so
    each machine gets the same rewritten score in both, and the results hold
    the same entries again. *)
Theorem NormalizeScore_Permutation (scores scores' : NodeScoreList) :
  scores ≡ₚ scores' ->
  scores <> [] ->
  int64_scores scores ->
  exists highest lowest out out',
    normalization_bounds scores = Ok (highest, lowest)
    /\ normalization_bounds scores' = Ok (highest, lowest)
    /\ NormalizeScore scores = Ok (out, NewStatus Success EmptyString)
    /\ NormalizeScore scores' = Ok (out', NewStatus Success EmptyString)
    /\ out = rescale_entry highest lowest <$> scores
    /\ out' = rescale_entry highest lowest <$> scores'
    /\ out ≡ₚ out'.
Proof.
  intros Hperm Hne H64.
  assert (H64' : int64_scores scores').
  { unfold int64_scores. rewrite <- Hperm. exact H64. }
  destruct (minimum (framework.Score <$> scores)) as [lo|] eqn:Hmin;
    [|destruct scores; [contradiction | discriminate Hmin]].
  destruct (maximum (framework.Score <$> scores)) as [m|] eqn:Hmax;
    [|destruct scores; [contradiction | discriminate Hmax]].
  assert (Hmin' : minimum (framework.Score <$> scores') = Some lo).
  { rewrite <- Hmin. symmetry. apply minimum_Permutation. now rewrite Hperm. }
  assert (Hmax' : maximum (framework.Score <$> scores') = Some m).
  { rewrite <- Hmax. symmetry. apply maximum_Permutation. now rewrite Hperm. }
  destruct (NormalizeScore_by_extrema scores lo m H64 Hmin Hmax)
    as (_ & Hnb & Hrun & _).
  destruct (NormalizeScore_by_extrema scores' lo m H64' Hmin' Hmax')
    as (_ & Hnb' & Hrun' & _).
  do 4 eexists. split; [exact Hnb|]. split; [exact Hnb'|].
  split; [exact Hrun|]. split; [exact Hrun'|].
  split; [reflexivity|]. split; [reflexivity|].
  now rewrite Hperm.
Qed.

Lemma NormalizeScore_Permutation_witness :
  exists out out',
    NormalizeScore [ns "m1" 30; ns "m2" 7; ns "m3" 8] = Ok (out, NewStatus Success EmptyString)
    /\ NormalizeScore [ns "m3" 8; ns "m1" 30; ns "m2" 7]
       = Ok (out', NewStatus Success EmptyString)
    /\ out ≡ₚ out'.
Proof.
  destruct (NormalizeScore_Permutation
              [ns "m1" 30; ns "m2" 7; ns "m3" 8] [ns "m3" 8; ns "m1" 30; ns "m2" 7])
    as (hi & lo & out & out' & _ & _ & Hrun & Hrun' & _ & _ & Hperm).
  - symmetry. apply (Permutation_cons_append [ns "m1" 30; ns "m2" 7] (ns "m3" 8)).
  - discriminate.
  - int64_list.
  - exists out, out'. split; [exact Hrun|]. split; [exact Hrun'|exact Hperm].
Defined.

(** ** Filter, beyond the design document *)

(** X10. The calls Filter makes, in order.  When the store cannot answer,
    the lookup is the only call: none of the three checks runs.  When the
    store answers and the device-count check passes, the memory check and
    the clock check both run, each with the number the device-count check
    returned, the clock check also when the memory check has failed. *)
Theorem Filter_calls_order {filterPkg : FilterPackage}
    (y : Yoda) (pod : v1.Pod) (node : nodeinfo.NodeInfo) (currentScv : scv.Scv) :
  (forall err,
     Get (scvClient y) (nodeinfo.NodeName node) = (currentScv, Some err) ->
     (Filter_calls y pod node).2 = [CallGet (nodeinfo.NodeName node)])
  /\ (Get (scvClient y) (nodeinfo.NodeName node) = (currentScv, None) ->
      (PodFitsNumber pod currentScv).1 = true ->
      (Filter_calls y pod node).2
      = [CallGet (nodeinfo.NodeName node); CallPodFitsNumber;
         CallPodFitsMemory (PodFitsNumber pod currentScv).2;
         CallPodFitsClock (PodFitsNumber pod currentScv).2]).
Proof.
  split.
  - intros err Hget. now rewrite (Filter_calls_failed y pod node _ _ Hget).
  - intros Hget Hfit. rewrite (Filter_calls_found y pod node _ Hget). cbv zeta.
    rewrite Hfit. reflexivity.
Qed.

Lemma Filter_calls_order_witness :
  (Filter_calls (filterPkg := design.filter_package)
     cluster.plugin cluster.job (cluster.node "M9")).2 = [CallGet "M9"]
  /\ (Filter_calls (filterPkg := design.filter_package)
        cluster.plugin cluster.job (cluster.node "M3")).2
     = [CallGet "M3"; CallPodFitsNumber; CallPodFitsMemory 0; CallPodFitsClock 0].
Proof.
  split.
  - apply (proj1 (Filter_calls_order (filterPkg := design.filter_package)
                    cluster.plugin cluster.job (cluster.node "M9") cluster.unknown)
             "not found").
    reflexivity.
  - apply (proj2 (Filter_calls_order (filterPkg := design.filter_package)
                    cluster.plugin cluster.job (cluster.node "M3") cluster.M3));
      reflexivity.
Defined.

(** ** Score, beyond the design document *)

(** X11. Score answers Success exactly when the node snapshot, the store
    and the score calculation all came back without an error; the score it
    returns is then the calculated one, converted. *)
Theorem Score_success_iff
    {filterPkg : FilterPackage} {scorePkg : ScorePackage} {strconv : Strconv}
    (y : Yoda) (state : CycleState) (p : v1.Pod) (nodeName : string) :
  let nodeInfo := (NodeInfos_Get (handle y) nodeName).1 in
  let currentScv := (Get (scvClient y) nodeName).1 in
  let calculated := CalculateScore currentScv state p nodeInfo in
  (code (Score y state p nodeName).2 = Success <->
     (NodeInfos_Get (handle y) nodeName).2 = None
     /\ (Get (scvClient y) nodeName).2 = None
     /\ calculated.2 = None)
  /\ (code (Score y state p nodeName).2 = Success ->
      Score y state p nodeName
      = (Uint64ToInt64 calculated.1, NewStatus Success EmptyString)).
Proof.
  cbv zeta. unfold Score.
  destruct (NodeInfos_Get (handle y) nodeName) as [nodeInfo [e1|]]; cbn [fst snd].
  { split; [split; [discriminate | intros [? _]; discriminate] | discriminate]. }
  destruct (Get (scvClient y) nodeName) as [currentScv [e2|]]; cbn [fst snd].
  { split; [split; [discriminate | intros (_ & ? & _); discriminate] | discriminate]. }
  destruct (CalculateScore currentScv state p nodeInfo) as [u [e3|]]; cbn [fst snd].
  { split; [split; [discriminate | intros (_ & _ & ?); discriminate] | discriminate]. }
  split; [split; [intros _; repeat split | reflexivity] | reflexivity].
Qed.

Lemma Score_success_iff_witness :
  Score (filterPkg := design.filter_package)
        (scorePkg := design.score_package cluster.weighting)
        (strconv := cluster.quotes)
        cluster.plugin {["device-count" := 2%N; "memory" := 16%N; "clock" := 8%N]}
        cluster.job "M1"
  = (26, NewStatus Success EmptyString).
Proof.
  destruct (Score_success_iff
              (filterPkg := design.filter_package)
              (scorePkg := design.score_package cluster.weighting)
              (strconv := cluster.quotes)
              cluster.plugin {["device-count" := 2%N; "memory" := 16%N; "clock" := 8%N]}
              cluster.job "M1") as [Hiff Hvalue].
  rewrite Hvalue; [reflexivity|].
  apply Hiff. repeat split; reflexivity.
Defined.

(** X13. The same failure of the store is reported differently by the two
    entry points: Filter rejects the machine with code Unschedulable, Score
    (the node being in the snapshot) answers with code Error; both carry the
    text of the store's error at the end of their reason. *)
Theorem store_failure_reports
    {filterPkg : FilterPackage} {scorePkg : ScorePackage} {strconv : Strconv}
    (y : Yoda) (state : CycleState) (pod : v1.Pod) (node : nodeinfo.NodeInfo)
    (currentScv : scv.Scv) (err : error) :
  Get (scvClient y) (nodeinfo.NodeName node) = (currentScv, Some err) ->
  (NodeInfos_Get (handle y) (nodeinfo.NodeName node)).2 = None ->
  Filter y pod node
  = NewStatus Unschedulable ((("Node:" +:+ nodeinfo.NodeName node) +:+ " ") +:+ err)
  /\ Score y state pod (nodeinfo.NodeName node)
     = (0, NewStatus Error ("Score Node Error: " +:+ err)).
Proof.
  intros Hget Hnode. split.
  - unfold Filter. now rewrite (Filter_calls_failed y pod node _ _ Hget).
  - unfold Score.
    destruct (NodeInfos_Get (handle y) (nodeinfo.NodeName node)) as [nodeInfo e1].
    cbn in Hnode. subst e1. now rewrite Hget.
Qed.

Lemma store_failure_reports_witness :
  Filter (filterPkg := design.filter_package) cluster.plugin cluster.job (cluster.node "M9")
  = NewStatus Unschedulable "Node:M9 not found"
  /\ Score (filterPkg := design.filter_package)
           (scorePkg := design.score_package cluster.weighting)
           (strconv := cluster.quotes)
           cluster.plugin ∅ cluster.job "M9"
     = (0, NewStatus Error "Score Node Error: not found").
Proof.
  apply (store_failure_reports
           (filterPkg := design.filter_package)
           (scorePkg := design.score_package cluster.weighting)
           (strconv := cluster.quotes)
           cluster.plugin ∅ cluster.job (cluster.node "M9") cluster.unknown "not found");
    reflexivity.
Defined.

(** ** PostFilter *)

(** X14. When the store cannot list its inventories, PostFilter leaves the
    cycle state as it found it and answers with code Error and the text of
    the store's error as the reason; the aggregation is not run.  Otherwise
    its outcome is the aggregation's over the whole listing.  In both cases
    the candidate nodes and the statuses Filter gave them are not looked at:
    machines that Filter rejected count in the aggregation too. *)
Theorem PostFilter_outcome {listing : Listing} {collectionPkg : CollectionPackage}
    (y : Yoda) (state : CycleState) (pod : v1.Pod)
    (nodes : list string) (filteredNodesStatuses : gmap string Status) :
  (forall scvList err,
     List (scvClient y) = (scvList, Some err) ->
     PostFilter y state pod nodes filteredNodesStatuses = (state, NewStatus Error err))
  /\ (forall scvList,
        List (scvClient y) = (scvList, None) ->
        PostFilter y state pod nodes filteredNodesStatuses
        = CollectMaxValues state pod scvList)
  /\ (forall nodes' filteredNodesStatuses',
        PostFilter y state pod nodes' filteredNodesStatuses'
        = PostFilter y state pod nodes filteredNodesStatuses).
Proof.
  unfold PostFilter. split; [|split].
  - intros scvList err ->. reflexivity.
  - intros scvList ->. reflexivity.
  - reflexivity.
Qed.

Lemma PostFilter_outcome_witness :
  PostFilter (listing := fixtures.failing_listing) (collectionPkg := fixtures.counting)
    cluster.plugin {["clock" := 8%N]} cluster.job ["M1"; "M2"] ∅
  = ({["clock" := 8%N]}, NewStatus Error "store unavailable")
  /\ PostFilter (listing := fixtures.listing) (collectionPkg := fixtures.counting)
       cluster.plugin ∅ cluster.job ["M1"] {["M2" := NewStatus Unschedulable "Node:M2"]}
     = ({["device-count" := 3%N]}, NewStatus Success EmptyString).
Proof.
  split.
  - apply (proj1 (PostFilter_outcome
                    (listing := fixtures.failing_listing) (collectionPkg := fixtures.counting)
                    cluster.plugin {["clock" := 8%N]} cluster.job ["M1"; "M2"] ∅)
             []).
    reflexivity.
  - rewrite (proj1 (proj2 (PostFilter_outcome
                    (listing := fixtures.listing) (collectionPkg := fixtures.counting)
                    cluster.plugin ∅ cluster.job ["M1"]
                    {["M2" := NewStatus Unschedulable "Node:M2"]}))
               [cluster.M1; cluster.M2; cluster.M3] eq_refl).
    reflexivity.
Defined.

(** ** New and NewScvClient *)

(** X15. NewScvClient hands back a client exactly when the scheme was
    extended, a configuration was built from two empty flags and the client
    was made of it, all without error; the errors of the three steps are not
    handed back, the result is then nil. *)
Theorem NewScvClient_built {environment : Environment} (c : Client) :
  NewScvClient = Some c <->
  AddToScheme = None
  /\ exists config,
       BuildConfigFromFlags EmptyString EmptyString = (config, None)
       /\ client_New config = (Some c, None).
Proof.
  unfold NewScvClient. destruct AddToScheme as [e1|].
  { split; [discriminate | intros [? _]; discriminate]. }
  destruct (BuildConfigFromFlags EmptyString EmptyString) as [config [e2|]].
  { split; [discriminate | intros (_ & config' & [=] & _)]. }
  destruct (client_New config) as [c' [e3|]] eqn:Hnew.
  { split; [discriminate|]. intros (_ & config' & [= <-] & Hc).
    rewrite Hnew in Hc. discriminate Hc. }
  split.
  - intros ->. split; [reflexivity|]. exists config. split; [reflexivity | exact Hnew].
  - intros (_ & config' & [= <-] & Hc). rewrite Hnew in Hc. now injection Hc.
Qed.

Lemma NewScvClient_built_witness :
  NewScvClient (environment := fixtures.in_cluster) = Some cluster.store.
Proof.
  apply (NewScvClient_built (environment := fixtures.in_cluster) cluster.store).
  split; [reflexivity|]. exists tt. split; reflexivity.
Defined.

(** X16. The only error New hands back is the decoding error of its
    configuration, unchanged, and then there is no plugin.  When decoding
    succeeds New succeeds, with the decoded arguments and the handle it was
    given, also when no client could be built: the plugin then holds a nil
    client.  The client does not depend on the configuration. *)
Theorem New_outcome {environment : Environment}
    (configuration : Unknown) (f : FrameworkHandle) :
  let decoded :=
    DecodeInto configuration {| KubeConfig := EmptyString; Master := EmptyString |} in
  (New configuration f).2 = decoded.2
  /\ (forall err, decoded.2 = Some err -> (New configuration f).1 = None)
  /\ (decoded.2 = None ->
      exists plugin,
        (New configuration f).1 = Some plugin
        /\ args plugin = decoded.1
        /\ instance_handle plugin = f
        /\ instance_scvClient plugin = NewScvClient
        /\ forall configuration' f' plugin',
             (New configuration' f').1 = Some plugin' ->
             instance_scvClient plugin' = instance_scvClient plugin).
Proof.
  cbv zeta. unfold New.
  destruct (DecodeInto configuration _) as [decoded [err|]]; cbn [fst snd].
  - split; [reflexivity|]. split; [reflexivity | discriminate].
  - split; [reflexivity|]. split; [discriminate|].
    intros _. eexists. repeat (split; [reflexivity|]).
    intros configuration' f' plugin'.
    destruct (DecodeInto configuration' _) as [decoded' [err'|]]; cbn [fst];
      [discriminate|].
    intros [= <-]. reflexivity.
Qed.

Lemma New_outcome_witness :
  exists plugin,
    (New (environment := fixtures.no_config) "10.0.0.1" cluster.snapshot).1 = Some plugin
    /\ (New (environment := fixtures.no_config) "10.0.0.1" cluster.snapshot).2 = None
    /\ Master (args plugin) = "10.0.0.1"
    /\ instance_scvClient plugin = None.
Proof.
  destruct (New_outcome (environment := fixtures.no_config) "10.0.0.1" cluster.snapshot)
    as (Herr & _ & Hbuilt).
  destruct (Hbuilt eq_refl) as (plugin & Hnew & Hargs & _ & Hclient & _).
  exists plugin. split; [exact Hnew|]. split; [rewrite Herr; reflexivity|].
  split; [rewrite Hargs; reflexivity | rewrite Hclient; reflexivity].
Defined.
